(** * Module composition and request routing of the Intelligence Design Studio

    A shallow embedding of the logic in
    [src/components/IntelligenceDesignStudio.tsx]: the selection handlers of
    the studio ([toggleIntent] and its siblings), the composition resolver
    ([activeEngines], [enginesByPhase]) and the chat handler of the co-pilot
    panel ([handleSendMessage]).

    Part I holds the definitions, Part II the lemmas and theorems about the
    resolver, the selection and the router, Part III further properties of
    the handlers. *)

From Stdlib Require Import Ascii Permutation.
From stdpp Require Import base option list strings gmap.

(* ===================================================================== *)
(** * Part I: definitions *)
(* ===================================================================== *)

(** ** JavaScript string primitives used by the component

    A string is a sequence of code units; [ascii] covers the code units
    below 256, on which [toLowerCase] and the white space class of [trim]
    are the ones of ECMAScript. *)
Module JsString.

(** White space and line terminators of ECMAScript below 256:
    TAB, LF, VT, FF, CR, SP and NBSP. *)
Definition isWhiteSpace (c : ascii) : bool :=
  let n := nat_of_ascii c in
  ((9 <=? n) && (n <=? 13)) || (n =? 32) || (n =? 160).

(** Lower-case mapping of one code unit: A-Z, and the capitals of the
    Latin-1 block (U+00C0 to U+00DE, the sign U+00D7 apart). *)
Definition lowerChar (c : ascii) : ascii :=
  let n := nat_of_ascii c in
  if ((65 <=? n) && (n <=? 90))
     || ((192 <=? n) && (n <=? 222) && negb (n =? 215))
  then ascii_of_nat (n + 32)
  else c.

Fixpoint toLowerCase (s : string) : string :=
  match s with
  | EmptyString => EmptyString
  | String c s' => String (lowerChar c) (toLowerCase s')
  end.

(** [startsWith s p]: [p] is a prefix of [s]. *)
Fixpoint startsWith (s p : string) {struct p} : bool :=
  match p, s with
  | EmptyString, _ => true
  | String _ _, EmptyString => false
  | String b p', String a s' => bool_decide (a = b) && startsWith s' p'
  end.

(** [s.includes(p)]: [p] occurs in [s] at some position. *)
Fixpoint includes (s p : string) : bool :=
  startsWith s p
  || match s with
     | EmptyString => false
     | String _ s' => includes s' p
     end.

Fixpoint trimStart (s : string) : string :=
  match s with
  | EmptyString => EmptyString
  | String c s' => if isWhiteSpace c then trimStart s' else s
  end.

Fixpoint trimEnd (s : string) : string :=
  match s with
  | EmptyString => EmptyString
  | String c s' =>
      match trimEnd s' with
      | EmptyString => if isWhiteSpace c then EmptyString else String c EmptyString
      | r => String c r
      end
  end.

Definition trim (s : string) : string := trimEnd (trimStart s).

(** Truthiness of a string value: every string but the empty one. *)
Definition truthy (s : string) : bool :=
  match s with EmptyString => false | String _ _ => true end.

(** [l.join(sep)] on an array of strings. *)
Fixpoint join (sep : string) (l : list string) : string :=
  match l with
  | [] => ""
  | [x] => x
  | x :: rest => x +:+ sep +:+ join sep rest
  end.

End JsString.

(** ** An insertion-ordered [Set<string>]

    [add] appends a value that is not yet a member and leaves the set alone
    otherwise; [Array.from] lists the members in insertion order, so the set
    is its own list of members. *)
Module JsSet.

Definition t := list string.

Definition empty : t := [].

Definition add (s : t) (x : string) : t :=
  if decide (x ∈ s) then s else s ++ [x].

Definition toArray (s : t) : list string := s.

End JsSet.

(** ** Static catalogs *)

(** An entry of [STRATEGIC_INTENTS] (its type is declared in [../types]);
    the component reads [id], [title], [description], [recommendedModules]
    and [personaAlignment]. *)
Record StrategicIntent := mkIntent {
  id : string;
  title : string;
  description : string;
  recommendedModules : list string;
  personaAlignment : list string
}.

(** The object literal [MODULE_PHASES], as a finite map of its properties. *)
Definition MODULE_PHASES : gmap string string :=
  list_to_map
    [ ("geopolitics", "Macro");
      ("rroi", "Macro");
      ("comfort_index", "Macro");
      ("math_models", "Macro");
      ("rocket_engine", "Macro");
      ("governance_audit", "Integrity");
      ("due_diligence", "Integrity");
      ("symbiotic_matchmaking", "Expansion");
      ("matchmaking_engine", "Expansion");
      ("seam", "Expansion");
      ("partner_intel", "Expansion");
      ("deep_reasoning", "Expansion");
      ("trade_disruption", "Expansion");
      ("predictive_growth", "Expansion");
      ("alternative_locations", "Expansion");
      ("cultural_intel", "Execution");
      ("negotiation_advantage", "Execution");
      ("stakeholder_analysis", "Execution");
      ("relationship_builder", "Execution");
      ("final_review", "Execution") ].

(** The four phases, in the order the preview renders them. *)
Definition PHASES : list string := ["Macro"; "Integrity"; "Expansion"; "Execution"].

(** ** The report parameters owned by the studio's parent *)

(** The fields of [ReportParameters] this file reads or writes by name.
    [others] holds the remaining text fields ([skillLevel], [userName],
    [userDepartment], [userEmail], [userPhone], [customOrganizationType],
    [customOrganizationSubType], [userCountry], [userAddress],
    [userWebsite]), which are only copied by the spread [{...params}] or
    overwritten with input text. An absent optional field is [None]. *)
Record ReportParameters := mkParams {
  selectedIntents : option (list string);
  selectedIntent : option string;
  problemStatement : option string;
  initialThought : option string;
  uploadedFileName : option string;
  uploadedDocument : option bool;
  organizationType : string;
  organizationSubType : string;
  region : string;
  industry : list string;
  others : gmap string string
}.

(** [a || b] on an optional array: an array, even an empty one, is truthy. *)
Definition or_else {A} (a : option (list A)) (b : list A) : list A :=
  match a with Some l => l | None => b end.

(** [!s] on an optional string: true on [undefined] and on the empty string. *)
Definition falsy (s : option string) : bool :=
  match s with Some s' => negb (JsString.truthy s') | None => true end.

(** The outcome of awaiting a promise: its value, or the reason it was
    rejected with. *)
Inductive Settled (A : Type) :=
| Fulfilled (a : A)
| Rejected (reason : string).
Arguments Fulfilled {A} a.
Arguments Rejected {A} reason.

Section Studio.

(** The catalog [STRATEGIC_INTENTS] imported from [../constants]. *)
Context (STRATEGIC_INTENTS : list StrategicIntent).

(** [STRATEGIC_INTENTS.find(i => i.id === id)] *)
Definition findIntent (intentId : string) : option StrategicIntent :=
  List.find (λ i, bool_decide (id i = intentId)) STRATEGIC_INTENTS.

(** *** Selection handlers

    Each handler is the value it hands to [onParamsChange], computed from
    the [params] it closes over ([None] when it makes no call). *)

Definition toggleIntent (params : ReportParameters) (intentId : string)
  : ReportParameters :=
  let currentIntents := or_else (selectedIntents params) [] in
  let newIntents :=
    if bool_decide (intentId ∈ currentIntents)
    then filter (λ i, i ≠ intentId) currentIntents
    else currentIntents ++ [intentId] in
  {| selectedIntents := Some newIntents;
     selectedIntent :=
       if 0 <? length newIntents then newIntents !! 0 else None;
     problemStatement := problemStatement params;
     initialThought := initialThought params;
     uploadedFileName := uploadedFileName params;
     uploadedDocument := uploadedDocument params;
     organizationType := organizationType params;
     organizationSubType := organizationSubType params;
     region := region params;
     industry := industry params;
     others := others params |}.

Definition with_problemStatement (params : ReportParameters) (s : string)
  : ReportParameters :=
  {| selectedIntents := selectedIntents params;
     selectedIntent := selectedIntent params;
     problemStatement := Some s;
     initialThought := initialThought params;
     uploadedFileName := uploadedFileName params;
     uploadedDocument := uploadedDocument params;
     organizationType := organizationType params;
     organizationSubType := organizationSubType params;
     region := region params;
     industry := industry params;
     others := others params |}.

(** [handleProceedToCanvas]: a title that [find] does not deliver is
    [undefined], which [join] prints as the empty string. *)
Definition handleProceedToCanvas (params : ReportParameters)
  : option ReportParameters :=
  match selectedIntents params with
  | Some ids =>
      if falsy (problemStatement params) && (0 <? length ids)
      then
        let intentTitles :=
          JsString.join " + "
            (map (λ i, from_option title "" (findIntent i)) ids) in
        Some (with_problemStatement params ("Strategic Mission: " +:+ intentTitles))
      else None
  | None => None
  end.

(** [handleInitialThoughtAnalysis], given how [generateFastSuggestion]
    settles: a rejection is logged and makes no call. *)
Definition handleInitialThoughtAnalysis (params : ReportParameters)
    (refined : Settled string) : option ReportParameters :=
  if falsy (initialThought params) then None
  else match refined with
       | Fulfilled r => Some (with_problemStatement params r)
       | Rejected _ => None
       end.

(** [handleFileUpload], given the name of the first chosen file if any. *)
Definition handleFileUpload (params : ReportParameters) (file : option string)
  : option ReportParameters :=
  match file with
  | Some name =>
      Some {| selectedIntents := selectedIntents params;
              selectedIntent := selectedIntent params;
              problemStatement := problemStatement params;
              initialThought := initialThought params;
              uploadedFileName := Some name;
              uploadedDocument := Some true;
              organizationType := organizationType params;
              organizationSubType := organizationSubType params;
              region := region params;
              industry := industry params;
              others := others params |}
  | None => None
  end.

(** The inline [onChange] and [onClick] handlers of the identity form. *)
Inductive FormEdit :=
| EditOrganizationType (v : string)
| EditOrganizationSubType (v : string)
| EditRegion (v : string)
| EditInitialThought (v : string)
| EditOther (field v : string).

Definition applyEdit (params : ReportParameters) (e : FormEdit)
  : ReportParameters :=
  {| selectedIntents := selectedIntents params;
     selectedIntent := selectedIntent params;
     problemStatement := problemStatement params;
     initialThought :=
       match e with
       | EditInitialThought v => Some v
       | _ => initialThought params
       end;
     uploadedFileName := uploadedFileName params;
     uploadedDocument := uploadedDocument params;
     organizationType :=
       match e with
       | EditOrganizationType v => v
       | _ => organizationType params
       end;
     organizationSubType :=
       match e with
       | EditOrganizationType _ => ""
       | EditOrganizationSubType v => v
       | _ => organizationSubType params
       end;
     region :=
       match e with
       | EditRegion v => v
       | _ => region params
       end;
     industry := industry params;
     others :=
       match e with
       | EditOther field v => <[field := v]> (others params)
       | _ => others params
       end |}.

(** The handlers that call [onParamsChange] before they return, and the
    parameters the parent holds after each: the parent stores the value it
    is handed, and a handler that makes no call leaves the parameters as they
    are. [handleInitialThoughtAnalysis] is not among them: it makes its call
    after an [await], with the parameters it was started on (see [studioAct]
    below). *)
Inductive StudioEvent :=
| Toggle (intentId : string)
| ProceedToCanvas
| FileUpload (file : option string)
| Edit (e : FormEdit).

Definition isToggle (ev : StudioEvent) : bool :=
  match ev with Toggle _ => true | _ => false end.

Definition studioStep (params : ReportParameters) (ev : StudioEvent)
  : ReportParameters :=
  match ev with
  | Toggle intentId => toggleIntent params intentId
  | ProceedToCanvas => default params (handleProceedToCanvas params)
  | FileUpload file => default params (handleFileUpload params file)
  | Edit e => applyEdit params e
  end.

(** *** Composition resolver *)

(** [activeEngines], the memoised array of active module ids. *)
Definition activeEngines (params : ReportParameters) : list string :=
  let selectedIds := or_else (selectedIntents params) [] in
  let moduleSet := JsSet.empty in
  let moduleSet := JsSet.add moduleSet "geopolitics" in
  let moduleSet := JsSet.add moduleSet "final_review" in
  let moduleSet :=
    foldl (λ moduleSet intentId,
             match findIntent intentId with
             | Some intent => foldl JsSet.add moduleSet (recommendedModules intent)
             | None => moduleSet
             end)
          moduleSet selectedIds in
  JsSet.toArray moduleSet.

End Studio.

(** [groups], an object whose keys keep their insertion order. *)
Definition Groups := list (string * list string).

(** [groups[phase]] *)
Definition group (groups : Groups) (phase : string) : option (list string) :=
  snd <$> List.find (λ kv, bool_decide (kv.1 = phase)) groups.

(** [groups[phase].push(engineId)] *)
Definition push (groups : Groups) (phase engineId : string) : Groups :=
  map (λ kv, if bool_decide (kv.1 = phase) then (kv.1, kv.2 ++ [engineId]) else kv)
      groups.

(** The names under which every object literal inherits a property from
    [Object.prototype]: built-in functions, and under [__proto__] the
    prototype object itself. All of these values are truthy. *)
Definition Object_prototype : list string :=
  [ "constructor"; "hasOwnProperty"; "isPrototypeOf"; "propertyIsEnumerable";
    "toLocaleString"; "toString"; "valueOf"; "__proto__";
    "__defineGetter__"; "__defineSetter__"; "__lookupGetter__";
    "__lookupSetter__" ].

(** What reading a property of a string-valued object literal gives: a
    string of the literal, the built-in found under an inherited name, or
    [undefined]. *)
Inductive JsValue :=
| JsUndefined
| JsStr (s : string)
| JsBuiltin (name : string).

(** [o[key]] on an object literal [o]: its own properties first, then the
    ones of [Object.prototype]. *)
Definition getProperty (o : gmap string string) (key : string) : JsValue :=
  match o !! key with
  | Some v => JsStr v
  | None => if bool_decide (key ∈ Object_prototype) then JsBuiltin key
            else JsUndefined
  end.

(** [MODULE_PHASES[engineId] || 'Execution']: the left operand when it is
    truthy (a non-empty string, or any built-in). *)
Definition phaseOf (engineId : string) : JsValue :=
  match getProperty MODULE_PHASES engineId with
  | JsStr phase => if JsString.truthy phase then JsStr phase else JsStr "Execution"
  | JsBuiltin name => JsBuiltin name
  | JsUndefined => JsStr "Execution"
  end.

(** [enginesByPhase], from the array of active module ids. A phase that is
    a built-in is turned into its property key, the source text of the
    function (or [[object Object]]), under which [groups] has nothing: the
    guard fails and the id is pushed nowhere. A phase that is a string is one
    of the four keys of [groups] ([phaseOf_range] below), so [group] has only
    own properties to look at. *)
Definition enginesByPhase (activeEngines : list string) : Groups :=
  let groups : Groups :=
    [("Macro", []); ("Integrity", []); ("Expansion", []); ("Execution", [])] in
  foldl (λ groups engineId,
           match phaseOf engineId with
           | JsStr phase =>
               match group groups phase with
               | Some _ => push groups phase engineId
               | None => groups
               end
           | _ => groups
           end)
        groups activeEngines.

(** ** The co-pilot panel ([Inquire]) *)

Inductive AgentType := scout | strategist | diplomat.

Record Source := mkSource { source_title : string; uri : string }.

Inductive Sender := user | ai.

Record ChatMessage := mkMessage {
  sender : Sender;
  text : string;
  agent : option AgentType;
  sources : option (list Source)
}.

(** What [orchestrateAgentResponse] resolves to. *)
Record AgentResponse := mkResponse {
  content : string;
  response_agent : option AgentType;
  response_sources : option (list Source)
}.

(** The state of the panel ([messages], [inputText], [activeAgent],
    [agentStatus]) together with what the handler does to the outside: the
    lines it writes with [console.error] and the requests it sends to the
    responder, both oldest first. *)
Record Session := mkSession {
  messages : list ChatMessage;
  inputText : string;
  activeAgent : option AgentType;
  agentStatus : string;
  consoleLog : list string;
  requests : list (string * string)
}.

(** How a statement completes: normally with a value, or abruptly with the
    value thrown. *)
Inductive Completion (A : Type) :=
| Normal (a : A)
| Throw (e : string).
Arguments Normal {A} a.
Arguments Throw {A} e.

(** A handler body: a function of the session that completes and leaves a
    session behind. *)
Definition Action (A : Type) : Type := Session → Completion A * Session.

#[global] Instance Action_ret : MRet Action := λ A a s, (Normal a, s).

#[global] Instance Action_bind : MBind Action := λ A B k m s,
  match m s with
  | (Normal a, s') => k a s'
  | (Throw e, s') => (Throw e, s')
  end.

(** [try { body } catch (e) { handler } finally { fin }] *)
Definition try_catch_finally {A} (body : Action A) (handler : string → Action A)
    (fin : Action unit) : Action A := λ s,
  let '(r, s') :=
    match body s with
    | (Normal a, s') => (Normal a, s')
    | (Throw e, s') => handler e s'
    end in
  match fin s' with
  | (Normal _, s'') => (r, s'')
  | (Throw e, s'') => (Throw e, s'')
  end.

Definition getInputText : Action string := λ s, (Normal (inputText s), s).

Definition setMessages (f : list ChatMessage → list ChatMessage) : Action unit :=
  λ s, (Normal (),
        {| messages := f (messages s); inputText := inputText s;
           activeAgent := activeAgent s; agentStatus := agentStatus s;
           consoleLog := consoleLog s; requests := requests s |}).

Definition setInputText (v : string) : Action unit :=
  λ s, (Normal (),
        {| messages := messages s; inputText := v;
           activeAgent := activeAgent s; agentStatus := agentStatus s;
           consoleLog := consoleLog s; requests := requests s |}).

Definition setActiveAgent (v : option AgentType) : Action unit :=
  λ s, (Normal (),
        {| messages := messages s; inputText := inputText s;
           activeAgent := v; agentStatus := agentStatus s;
           consoleLog := consoleLog s; requests := requests s |}).

Definition setAgentStatus (v : string) : Action unit :=
  λ s, (Normal (),
        {| messages := messages s; inputText := inputText s;
           activeAgent := activeAgent s; agentStatus := v;
           consoleLog := consoleLog s; requests := requests s |}).

Definition console_error (label e : string) : Action unit :=
  λ s, (Normal (),
        {| messages := messages s; inputText := inputText s;
           activeAgent := activeAgent s; agentStatus := agentStatus s;
           consoleLog := consoleLog s ++ [label +:+ " " +:+ e];
           requests := requests s |}).

Section Inquire.

(** The props of the panel and the responder of [../services/nexusService]:
    for a message and a context, how its promise settles. *)
Context (params : ReportParameters).
Context (orchestrateAgentResponse : string → string → Settled AgentResponse).

(** [await orchestrateAgentResponse(userMsg, context)] *)
Definition awaitResponse (userMsg context : string) : Action AgentResponse :=
  λ s,
    let s' := {| messages := messages s; inputText := inputText s;
                 activeAgent := activeAgent s; agentStatus := agentStatus s;
                 consoleLog := consoleLog s;
                 requests := requests s ++ [(userMsg, context)] |} in
    match orchestrateAgentResponse userMsg context with
    | Fulfilled r => (Normal r, s')
    | Rejected e => (Throw e, s')
    end.

(** The agent the panel shows as busy for a message (the [if] chain that
    precedes the [try] statement). *)
Definition selectAgent (userMsg : string) : Action unit :=
  if JsString.includes (JsString.toLowerCase userMsg) "news"
     || JsString.includes (JsString.toLowerCase userMsg) "search"
  then setActiveAgent (Some scout);;
       setAgentStatus "Scouring global databases..."
  else if JsString.includes (JsString.toLowerCase userMsg) "negotiate"
  then setActiveAgent (Some diplomat);;
       setAgentStatus "Analyzing cultural nuance..."
  else setActiveAgent (Some strategist);;
       setAgentStatus "Simulating strategic outcomes...".

(** The template literal bound to [context]. *)
Definition context : string :=
  "User is a " +:+ organizationType params +:+ " in " +:+ region params
  +:+ ". Industry: " +:+ JsString.join ", " (industry params) +:+ ".".

(** The [try] statement of the handler. *)
Definition respond (userMsg : string) : Action unit :=
  try_catch_finally
    (response ← awaitResponse userMsg context;
     setMessages (λ prev,
       prev ++ [ {| sender := ai; text := content response;
                    agent := response_agent response;
                    sources := response_sources response |} ]))
    (λ e,
       console_error "Chat Error" e;;
       setMessages (λ prev,
         prev ++ [ {| sender := ai; text := "System overload. Re-routing...";
                      agent := None; sources := None |} ]))
    (setActiveAgent None;;
     setAgentStatus "").

Definition handleSendMessage : Action unit :=
  inputText ← getInputText;
  if negb (JsString.truthy (JsString.trim inputText)) then mret ()
  else
    let userMsg := inputText in
    setMessages (λ prev,
      prev ++ [ {| sender := user; text := userMsg;
                   agent := None; sources := None |} ]);;
    setInputText "";;
    selectAgent userMsg;;
    respond userMsg.

End Inquire.

(** ** What the intent cards render *)


(** ** The chat handler around its [await]

    [handleSendMessage] suspends once, at the call of the responder. What it
    does before ([sendBegin], which yields the request it sends, or nothing
    when the guard returns) and what it does once the promise has settled
    ([sendSettle]) are separate steps of the panel: other events may come in
    between. *)

Definition sendRequest (userMsg context : string) : Action unit :=
  λ s, (Normal (),
        {| messages := messages s; inputText := inputText s;
           activeAgent := activeAgent s; agentStatus := agentStatus s;
           consoleLog := consoleLog s;
           requests := requests s ++ [(userMsg, context)] |}).

Definition sendBegin (params : ReportParameters) : Action (option (string * string)) :=
  inputText ← getInputText;
  if negb (JsString.truthy (JsString.trim inputText)) then mret None
  else
    let userMsg := inputText in
    setMessages (λ prev,
      prev ++ [ {| sender := user; text := userMsg;
                   agent := None; sources := None |} ]);;
    setInputText "";;
    selectAgent userMsg;;
    sendRequest userMsg (context params);;
    mret (Some (userMsg, context params)).

(** The [await] resumes with the value, or throws the reason. *)
Definition resume (outcome : Settled AgentResponse) : Action AgentResponse :=
  λ s, match outcome with
       | Fulfilled r => (Normal r, s)
       | Rejected e => (Throw e, s)
       end.

Definition sendSettle (outcome : Settled AgentResponse) : Action unit :=
  try_catch_finally
    (response ← resume outcome;
     setMessages (λ prev,
       prev ++ [ {| sender := ai; text := content response;
                    agent := response_agent response;
                    sources := response_sources response |} ]))
    (λ e,
       console_error "Chat Error" e;;
       setMessages (λ prev,
         prev ++ [ {| sender := ai; text := "System overload. Re-routing...";
                      agent := None; sources := None |} ]))
    (setActiveAgent None;;
     setAgentStatus "").

(** The panel: its session and the requests that have not settled yet,
    oldest first. *)
Record Panel := mkPanel {
  session : Session;
  inFlight : list (string * string)
}.

(** What happens to the panel: the user types into the input ([onChange]),
    submits it (the button or the Enter key, with the [params] of that
    render), or the [k]-th request in flight settles. *)
Inductive PanelEvent :=
| TypeText (v : string)
| Submit (params : ReportParameters)
| Settles (k : nat) (outcome : Settled AgentResponse).

Definition panelStep (p : Panel) (ev : PanelEvent) : Panel :=
  match ev with
  | TypeText v =>
      {| session := (setInputText v (session p)).2; inFlight := inFlight p |}
  | Submit params =>
      match sendBegin params (session p) with
      | (Normal (Some request), s) =>
          {| session := s; inFlight := inFlight p ++ [request] |}
      | (_, s) => {| session := s; inFlight := inFlight p |}
      end
  | Settles k outcome =>
      match inFlight p !! k with
      | Some _ =>
          {| session := (sendSettle outcome (session p)).2;
             inFlight := delete k (inFlight p) |}
      | None => p
      end
  end.

Definition panelRun (p : Panel) (evs : list PanelEvent) : Panel :=
  foldl panelStep p evs.

(** The panel once mounted: the [useState] defaults, and the greeting that
    the mount effect puts into the transcript. *)
Definition greeting : ChatMessage :=
  {| sender := ai;
     text := "Nexus Intelligence System Online. Active Agents: Scout, Strategist, Diplomat. Awaiting directives.";
     agent := None; sources := None |}.

Definition mounted : Panel :=
  {| session :=
       {| messages := [greeting]; inputText := ""; activeAgent := None;
          agentStatus := ""; consoleLog := []; requests := [] |};
     inFlight := [] |}.

#[global] Instance Sender_eq_dec : EqDecision Sender.
Proof. solve_decision. Defined.

(** The messages of a transcript that a sender wrote. *)
Definition messagesOf (who : Sender) (s : Session) : list ChatMessage :=
  filter (λ m, sender m = who) (messages s).

(** ** The thought refinement around its [await]

    [handleInitialThoughtAnalysis] raises [isAnalyzingThought], suspends at
    [generateFastSuggestion] holding the [params] it was called with, and on
    settling hands [onParamsChange] what [handleInitialThoughtAnalysis]
    computes from those [params]; its [finally] lowers the flag. Its button
    is disabled while the thought is empty or the flag is up. *)

Record Studio := mkStudio {
  held : ReportParameters;
  isAnalyzingThought : bool;
  captured : list ReportParameters
}.

Inductive StudioAction :=
| Toggles (intentId : string)
| Proceeds
| Uploads (file : option string)
| Edits (e : FormEdit)
| ClickRefine
| RefineSettles (refined : Settled string).

Section StudioAsync.

Context (STRATEGIC_INTENTS : list StrategicIntent).

Definition studioAct (st : Studio) (a : StudioAction) : Studio :=
  match a with
  | Toggles intentId =>
      {| held := studioStep STRATEGIC_INTENTS (held st) (Toggle intentId);
         isAnalyzingThought := isAnalyzingThought st; captured := captured st |}
  | Proceeds =>
      {| held := studioStep STRATEGIC_INTENTS (held st) ProceedToCanvas;
         isAnalyzingThought := isAnalyzingThought st; captured := captured st |}
  | Uploads file =>
      {| held := studioStep STRATEGIC_INTENTS (held st) (FileUpload file);
         isAnalyzingThought := isAnalyzingThought st; captured := captured st |}
  | Edits e =>
      {| held := studioStep STRATEGIC_INTENTS (held st) (Edit e);
         isAnalyzingThought := isAnalyzingThought st; captured := captured st |}
  | ClickRefine =>
      if falsy (initialThought (held st)) || isAnalyzingThought st then st
      else {| held := held st; isAnalyzingThought := true;
              captured := captured st ++ [held st] |}
  | RefineSettles refined =>
      match captured st with
      | params :: rest =>
          {| held := default (held st) (handleInitialThoughtAnalysis params refined);
             isAnalyzingThought := false;
             captured := rest |}
      | [] => st
      end
  end.

Definition studioActs (st : Studio) (acts : list StudioAction) : Studio :=
  foldl studioAct st acts.

End StudioAsync.

(** ** The words of the specification *)

(** The phase the catalog assigns a module id, [Execution] when the id has
    no phase entry. *)
Definition catalogPhase (engineId : string) : string :=
  default "Execution" (MODULE_PHASES !! engineId).

(** The module ids that name no property inherited from
    [Object.prototype], in the order of the array. *)
Definition plainIds (engines : list string) : list string :=
  filter (λ m, m ∉ Object_prototype) engines.

(** The modules of an array that the catalog files under a phase, in the
    order of the array. *)
Definition inPhase (phase : string) (engines : list string) : list string :=
  filter (λ m, catalogPhase m = phase) engines.

(** The selection of the report parameters, as a list of intent ids. *)
Definition selection (params : ReportParameters) : list string :=
  or_else (selectedIntents params) [].

(** The legacy field agrees with the selection: it is the first selected
    id, and [undefined] when nothing is selected. *)
Definition primaryAgrees (params : ReportParameters) : Prop :=
  selectedIntent params = head (selection params).

(** How often an id was toggled in a sequence of toggles. *)
Definition toggles (x : string) (ids : list string) : nat :=
  length (filter (λ i, i = x) ids).

(** The two messages a failed request leaves in the transcript: the user's
    text, then the fixed fallback reply, with no agent and no sources. *)
Definition userMessage (userMsg : string) : ChatMessage :=
  {| sender := user; text := userMsg; agent := None; sources := None |}.

Definition fallbackMessage : ChatMessage :=
  {| sender := ai; text := "System overload. Re-routing...";
     agent := None; sources := None |}.

(** The reply a settled request leaves in the transcript: what the
    responder returned, or the fallback message. *)
Definition replyTo (outcome : Settled AgentResponse) : ChatMessage :=
  match outcome with
  | Fulfilled response =>
      {| sender := ai; text := content response;
         agent := response_agent response;
         sources := response_sources response |}
  | Rejected _ => fallbackMessage
  end.

(** [occursIn p s]: [p] occurs in [s] as a contiguous substring. *)
Definition occursIn (p s : string) : Prop :=
  ∃ pre post, s = pre +:+ p +:+ post.

(** [mentions kw s]: some substring of [s] spells [kw] when letter case is
    ignored. *)
Definition mentions (kw s : string) : Prop :=
  ∃ pre mid post,
    s = pre +:+ mid +:+ post ∧ JsString.toLowerCase mid = JsString.toLowerCase kw.

(** [whitespaceOnly s]: every code unit of [s] is white space (the empty
    string included). *)
Definition whitespaceOnly (s : string) : Prop :=
  Forall (λ c, JsString.isWhiteSpace c = true) (Stdlib.Strings.String.list_ascii_of_string s).

#[global] Instance whitespaceOnly_dec (s : string) : Decision (whitespaceOnly s).
Proof. unfold whitespaceOnly. apply _. Defined.

(** ** Sample data for the examples

    A small intent catalog (the one of [../constants] is not part of this
    file), report parameters over it, and a session of the panel. *)

Definition sampleIntents : list StrategicIntent :=
  [ {| id := "market_entry"; title := "Market Entry";
       description := "Enter a new market";
       recommendedModules := ["rroi"; "seam"; "geopolitics"];
       personaAlignment := ["All"] |};
    {| id := "partnership"; title := "Strategic Partnership";
       description := "Find and vet a partner";
       recommendedModules :=
         ["symbiotic_matchmaking"; "due_diligence"; "cultural_intel"; "rroi";
          "custom_probe"];
       personaAlignment := ["Corporate"] |} ].

Definition sampleParams (sel : option (list string)) (primary : option string)
  : ReportParameters :=
  {| selectedIntents := sel;
     selectedIntent := primary;
     problemStatement := None;
     initialThought := Some "Diversify the supply chain";
     uploadedFileName := None;
     uploadedDocument := None;
     organizationType := "Corporate";
     organizationSubType := "";
     region := "Vietnam";
     industry := ["Manufacturing"; "Logistics"];
     others := {[ "userName" := "Ada" ]} |}.

Definition sampleSession (input : string) : Session :=
  {| messages :=
       [ {| sender := ai;
            text := "Nexus Intelligence System Online. Active Agents: Scout, Strategist, Diplomat. Awaiting directives.";
            agent := None; sources := None |} ];
     inputText := input;
     activeAgent := None;
     agentStatus := "";
     consoleLog := [];
     requests := [] |}.

(** A responder that is down, and one that answers. *)
Definition failingResponder (userMsg context : string) : Settled AgentResponse :=
  Rejected "503".

Definition echoResponder (userMsg context : string) : Settled AgentResponse :=
  Fulfilled {| content := userMsg; response_agent := Some strategist;
               response_sources := None |}.

(* ===================================================================== *)
(** * Part II: lemmas and theorems *)
(* ===================================================================== *)

(** ** Strings *)

Lemma append_cons a s t : String a s +:+ t = String a (s +:+ t).
Proof. reflexivity. Qed.

Lemma append_nil_l s : "" +:+ s = s.
Proof. reflexivity. Qed.

Lemma append_assoc s t u : (s +:+ t) +:+ u = s +:+ t +:+ u.
Proof.
  induction s as [|a s IH]; [done|].
  by rewrite !append_cons, IH.
Qed.

Lemma toLowerCase_append s t :
  JsString.toLowerCase (s +:+ t)
  = JsString.toLowerCase s +:+ JsString.toLowerCase t.
Proof.
  induction s as [|a s IH]; [done|].
  rewrite append_cons. simpl. by rewrite IH.
Qed.

(** A split of the lowered string comes from a split of the string. *)
Lemma toLowerCase_split s a b :
  JsString.toLowerCase s = a +:+ b →
  ∃ a' b', s = a' +:+ b'
           ∧ JsString.toLowerCase a' = a ∧ JsString.toLowerCase b' = b.
Proof.
  revert s. induction a as [|c a IH]; intros s Hs.
  - exists "", s. by rewrite !append_nil_l in *.
  - rewrite append_cons in Hs. destruct s as [|d s]; [done|].
    simpl in Hs. injection Hs as Hc Hs.
    destruct (IH s Hs) as (a' & b' & -> & Ha & Hb).
    exists (String d a'), b'. rewrite append_cons. simpl.
    by rewrite Hc, Ha.
Qed.

Lemma startsWith_spec s p :
  JsString.startsWith s p = true ↔ ∃ post, s = p +:+ post.
Proof.
  revert s. induction p as [|b p IH]; intros s; simpl.
  - split; [|done]. intros _. by exists s.
  - destruct s as [|a s].
    + split; [done|]. by intros [post Hpost].
    + rewrite andb_true_iff, bool_decide_eq_true, IH. split.
      * intros [-> [post ->]]. by exists post.
      * intros [post Hpost]. rewrite append_cons in Hpost.
        injection Hpost as -> ->. eauto.
Qed.

Lemma includes_spec s p : JsString.includes s p = true ↔ occursIn p s.
Proof.
  unfold occursIn. induction s as [|a s IH].
  - simpl. rewrite orb_false_r, startsWith_spec. split.
    + intros [post Hpost]. by exists "", post.
    + intros (pre & post & H). destruct pre; [|done].
      rewrite append_nil_l in H. eauto.
  - cbn [JsString.includes]. rewrite orb_true_iff, startsWith_spec, IH. split.
    + intros [[post Hpost]|(pre & post & ->)].
      * by exists "", post.
      * by exists (String a pre), post.
    + intros (pre & post & H). destruct pre as [|c pre].
      * left. rewrite append_nil_l in H. eauto.
      * right. rewrite append_cons in H. injection H as -> ->. eauto.
Qed.

Lemma toLowerCase_idemp_char c :
  JsString.lowerChar (JsString.lowerChar c) = JsString.lowerChar c.
Proof. by destruct c as [[] [] [] [] [] [] [] []]. Qed.

Lemma toLowerCase_idemp s :
  JsString.toLowerCase (JsString.toLowerCase s) = JsString.toLowerCase s.
Proof.
  induction s as [|a s IH]; [done|].
  simpl. by rewrite toLowerCase_idemp_char, IH.
Qed.

(** The test the router makes, [text.toLowerCase().includes(kw)] for a
    lower-case keyword, is the case-insensitive substring test. *)
Lemma includes_toLowerCase_spec s kw :
  JsString.toLowerCase kw = kw →
  JsString.includes (JsString.toLowerCase s) kw = true ↔ mentions kw s.
Proof.
  intros Hkw. rewrite includes_spec. unfold occursIn, mentions. rewrite Hkw.
  split.
  - intros (pre & post & H).
    apply toLowerCase_split in H as (pre' & rest & -> & Hpre & H).
    apply toLowerCase_split in H as (mid & post' & -> & Hmid & Hpost).
    by exists pre', mid, post'.
  - intros (pre & mid & post & -> & Hmid).
    exists (JsString.toLowerCase pre), (JsString.toLowerCase post).
    by rewrite !toLowerCase_append, Hmid.
Qed.

Lemma whitespaceOnly_cons c s :
  whitespaceOnly (String c s) ↔ JsString.isWhiteSpace c = true ∧ whitespaceOnly s.
Proof. unfold whitespaceOnly. simpl. by rewrite Forall_cons. Qed.

Lemma trimEnd_empty s : JsString.trimEnd s = "" ↔ whitespaceOnly s.
Proof.
  induction s as [|c s IH].
  - split; [|done]. intros _. constructor.
  - rewrite whitespaceOnly_cons, <- IH. simpl.
    destruct (JsString.trimEnd s), (JsString.isWhiteSpace c);
      (split; [intros ?|intros [? ?]]; done).
Qed.

Lemma trimStart_whitespaceOnly s :
  whitespaceOnly (JsString.trimStart s) ↔ whitespaceOnly s.
Proof.
  induction s as [|c s IH]; [done|].
  simpl. destruct (JsString.isWhiteSpace c) eqn:Hc; [|done].
  rewrite whitespaceOnly_cons. tauto.
Qed.

(** [!inputText.trim()] holds exactly on the texts made of white space. *)
Lemma trim_falsy s :
  JsString.truthy (JsString.trim s) = false ↔ whitespaceOnly s.
Proof.
  rewrite <- trimStart_whitespaceOnly, <- trimEnd_empty. unfold JsString.trim.
  by destruct (JsString.trimEnd _).
Qed.

(** ** The insertion-ordered set *)

Lemma elem_of_add (s : JsSet.t) (x y : string) :
  y ∈ JsSet.add s x ↔ y ∈ s ∨ y = x.
Proof.
  unfold JsSet.add. case_decide as Hx.
  - split; [by left|]. intros [?| ->]; done.
  - rewrite elem_of_app, list_elem_of_singleton. done.
Qed.

Lemma elem_of_foldl_add (l : list string) (s : JsSet.t) (y : string) :
  y ∈ foldl JsSet.add s l ↔ y ∈ s ∨ y ∈ l.
Proof.
  revert s. induction l as [|x l IH]; intros s; simpl.
  - rewrite elem_of_nil. tauto.
  - rewrite IH, elem_of_add, elem_of_cons. tauto.
Qed.

Lemma NoDup_add (s : JsSet.t) (x : string) : NoDup s → NoDup (JsSet.add s x).
Proof.
  intros Hs. unfold JsSet.add. case_decide as Hx; [done|].
  apply NoDup_app. split_and!; [done| |apply NoDup_singleton].
  intros y Hy ->%list_elem_of_singleton. done.
Qed.

Lemma NoDup_foldl_add (l : list string) (s : JsSet.t) :
  NoDup s → NoDup (foldl JsSet.add s l).
Proof.
  revert s. induction l as [|x l IH]; intros s Hs; simpl; [done|].
  by apply IH, NoDup_add.
Qed.

(** ** The composition resolver *)

Section Resolver.

Context (STRATEGIC_INTENTS : list StrategicIntent).


(** The body of [selectedIds.forEach]. *)
Local Abbreviation addIntent :=
  (λ (moduleSet : JsSet.t) (intentId : string),
     match findIntent STRATEGIC_INTENTS intentId with
     | Some intent => foldl JsSet.add moduleSet (recommendedModules intent)
     | None => moduleSet
     end).

(** [find] fails exactly on the ids the catalog does not list. *)
Lemma findIntent_None (intentId : string) :
  findIntent STRATEGIC_INTENTS intentId = None ↔ intentId ∉ id <$> STRATEGIC_INTENTS.
Proof.
  unfold findIntent.
  induction STRATEGIC_INTENTS as [|i l IH]; simpl.
  - rewrite elem_of_nil. tauto.
  - rewrite not_elem_of_cons. case_bool_decide as Hi.
    + split; [done|]. intros [? _]. done.
    + rewrite IH. split; [|tauto]. intros ?. split; [congruence|done].
Qed.

Lemma elem_of_forEach (ids : list string) (s : JsSet.t) (y : string) :
  y ∈ foldl addIntent s ids
  ↔ y ∈ s ∨ ∃ intentId intent,
        intentId ∈ ids ∧ findIntent STRATEGIC_INTENTS intentId = Some intent
        ∧ y ∈ recommendedModules intent.
Proof.
  revert s. induction ids as [|i ids IH]; intros s; simpl.
  - split; [by left|]. intros [?|(? & ? & []%elem_of_nil & _)]. done.
  - rewrite IH. destruct (findIntent STRATEGIC_INTENTS i) as [intent|] eqn:Hi.
    + rewrite elem_of_foldl_add. split.
      * intros [[?|?]|(i' & intent' & ? & ? & ?)]; [by left| |].
        -- right. exists i, intent. by rewrite elem_of_cons; auto.
        -- right. exists i', intent'. by rewrite elem_of_cons; auto.
      * intros [?|(i' & intent' & [->|?]%elem_of_cons & Hf & ?)]; [by auto| |].
        -- left. right. congruence.
        -- right. eauto.
    + split.
      * intros [?|(i' & intent' & ? & ? & ?)]; [by left|].
        right. exists i', intent'. by rewrite elem_of_cons; auto.
      * intros [?|(i' & intent' & [->|?]%elem_of_cons & Hf & ?)]; [by auto| |].
        -- congruence.
        -- right. eauto.
Qed.

(** The members of the active set: the two baseline modules and what the
    selected intents of the catalog recommend. *)
Lemma elem_of_activeEngines (params : ReportParameters) (y : string) :
  y ∈ activeEngines STRATEGIC_INTENTS params
  ↔ y = "geopolitics" ∨ y = "final_review"
    ∨ ∃ intentId intent,
        intentId ∈ or_else (selectedIntents params) []
        ∧ findIntent STRATEGIC_INTENTS intentId = Some intent
        ∧ y ∈ recommendedModules intent.
Proof.
  unfold activeEngines, JsSet.toArray. rewrite elem_of_forEach.
  change (JsSet.add (JsSet.add JsSet.empty "geopolitics") "final_review")
    with ["geopolitics"; "final_review"].
  rewrite !elem_of_cons, elem_of_nil. tauto.
Qed.

Lemma NoDup_activeEngines (params : ReportParameters) :
  NoDup (activeEngines STRATEGIC_INTENTS params).
Proof.
  unfold activeEngines, JsSet.toArray.
  generalize (or_else (selectedIntents params) []). intros ids.
  assert (NoDup (JsSet.add (JsSet.add JsSet.empty "geopolitics") "final_review"))
    as Hbase by (apply NoDup_add, NoDup_add, NoDup_nil_2).
  revert Hbase.
  generalize (JsSet.add (JsSet.add JsSet.empty "geopolitics") "final_review").
  induction ids as [|i ids IH]; intros s Hs; simpl; [done|].
  apply IH. destruct (findIntent STRATEGIC_INTENTS i); [by apply NoDup_foldl_add|done].
Qed.

(** An id the catalog does not list leaves the set as it is. *)
Lemma forEach_filter_known (ids : list string) (s : JsSet.t) :
  foldl addIntent s (filter (λ i, i ∈ id <$> STRATEGIC_INTENTS) ids)
  = foldl addIntent s ids.
Proof.
  revert s. induction ids as [|i ids IH]; intros s; [done|].
  rewrite filter_cons. case_decide as Hi; simpl.
  - apply IH.
  - apply findIntent_None in Hi. rewrite Hi. apply IH.
Qed.

(** C3. For every selection (an absent one, the empty one and ids unknown to
    the catalog included) the active engines contain both baseline modules,
    'geopolitics' and 'final_review'; and the active engines depend on the
    report parameters through the selected intents only: parameters with the
    same selection resolve to the same array, whatever their other fields
    hold. *)
Theorem activeEngines_baseline_determined (params : ReportParameters) :
  "geopolitics" ∈ activeEngines STRATEGIC_INTENTS params
  ∧ "final_review" ∈ activeEngines STRATEGIC_INTENTS params
  ∧ ∀ params' : ReportParameters,
      selectedIntents params' = selectedIntents params →
      activeEngines STRATEGIC_INTENTS params' = activeEngines STRATEGIC_INTENTS params.
Proof.
  split_and!.
  - apply elem_of_activeEngines. by left.
  - apply elem_of_activeEngines. by right; left.
  - intros params' Hsel. unfold activeEngines. by rewrite Hsel.
Qed.

(** C5. Resolution is monotone: when every intent id of one selection is in
    another, every active engine of the first is an active engine of the
    second. *)
Theorem activeEngines_monotone (params1 params2 : ReportParameters) :
  or_else (selectedIntents params1) [] ⊆ or_else (selectedIntents params2) [] →
  activeEngines STRATEGIC_INTENTS params1 ⊆ activeEngines STRATEGIC_INTENTS params2.
Proof.
  intros Hsub y. rewrite !elem_of_activeEngines.
  intros [?|[?|(i & intent & Hi & Hf & Hy)]]; [by auto|by auto|].
  right; right. exists i, intent. split_and!; [|done..]. by apply Hsub.
Qed.

(** C7. Ids that the intent catalog does not list contribute nothing and
    raise nothing: the active engines of a selection are those of the
    selection with every unknown id removed. *)
Theorem activeEngines_ignores_unknown (params params' : ReportParameters) :
  selectedIntents params'
  = Some (filter (λ i, i ∈ id <$> STRATEGIC_INTENTS)
                 (or_else (selectedIntents params) [])) →
  activeEngines STRATEGIC_INTENTS params' = activeEngines STRATEGIC_INTENTS params.
Proof.
  intros Hsel. unfold activeEngines, JsSet.toArray.
  rewrite Hsel. simpl. apply forEach_filter_known.
Qed.

End Resolver.

(** ** Phase grouping *)

Lemma MODULE_PHASES_range (engineId phase : string) :
  MODULE_PHASES !! engineId = Some phase → phase ∈ PHASES.
Proof.
  unfold MODULE_PHASES. intros H%elem_of_list_to_map_2.
  repeat (apply elem_of_cons in H as [ [= -> ->] | H ]; [set_solver|]).
  by apply elem_of_nil in H.
Qed.

Lemma PHASES_cases (phase : string) :
  phase ∈ PHASES →
  phase = "Macro" ∨ phase = "Integrity" ∨ phase = "Expansion" ∨ phase = "Execution".
Proof. unfold PHASES. rewrite !elem_of_cons, elem_of_nil. tauto. Qed.

Lemma catalogPhase_range (engineId : string) : catalogPhase engineId ∈ PHASES.
Proof.
  unfold catalogPhase. destruct (MODULE_PHASES !! engineId) as [p|] eqn:H; simpl.
  - by apply MODULE_PHASES_range in H.
  - set_solver.
Qed.

(** No id of the catalog names an inherited property. *)
Lemma MODULE_PHASES_plain (engineId phase : string) :
  MODULE_PHASES !! engineId = Some phase → engineId ∉ Object_prototype.
Proof.
  unfold MODULE_PHASES. intros H%elem_of_list_to_map_2.
  repeat (apply elem_of_cons in H as [ [= -> ->] | H ];
          [apply (bool_decide_unpack _); by vm_compute|]).
  by apply elem_of_nil in H.
Qed.

(** No phase of the catalog is the empty string, so [||] falls back to
    'Execution' only on an id that the lookup does not find; and the lookup
    finds a built-in under every inherited name. *)
Lemma phaseOf_spec (engineId : string) :
  phaseOf engineId
  = if bool_decide (engineId ∈ Object_prototype) then JsBuiltin engineId
    else JsStr (catalogPhase engineId).
Proof.
  unfold phaseOf, getProperty, catalogPhase.
  destruct (MODULE_PHASES !! engineId) as [p|] eqn:H.
  - rewrite bool_decide_eq_false_2 by by eapply MODULE_PHASES_plain.
    simpl. apply MODULE_PHASES_range, PHASES_cases in H.
    by destruct H as [-> | [-> | [-> | ->]]].
  - by case_bool_decide.
Qed.

(** A phase that is a string is one of the four keys of [groups]. *)
Lemma phaseOf_range (engineId phase : string) :
  phaseOf engineId = JsStr phase → phase ∈ PHASES.
Proof.
  rewrite phaseOf_spec. case_bool_decide; [done|].
  intros [= <-]. apply catalogPhase_range.
Qed.

Lemma plainIds_cons (m : string) (engines : list string) :
  plainIds (m :: engines)
  = if bool_decide (m ∈ Object_prototype) then plainIds engines
    else m :: plainIds engines.
Proof.
  unfold plainIds. rewrite filter_cons.
  case_bool_decide; [by rewrite decide_False by tauto|by rewrite decide_True].
Qed.

(** The body of [activeEngines.forEach] in [enginesByPhase]. *)
Local Abbreviation fileEngine :=
  (λ (groups : Groups) (engineId : string),
     match phaseOf engineId with
     | JsStr phase =>
         match group groups phase with
         | Some _ => push groups phase engineId
         | None => groups
         end
     | _ => groups
     end).

Lemma inPhase_cons (phase m : string) (engines : list string) :
  inPhase phase (m :: engines)
  = (if bool_decide (catalogPhase m = phase) then [m] else [])
    ++ inPhase phase engines.
Proof.
  unfold inPhase. rewrite filter_cons.
  case_bool_decide; [by rewrite decide_True|by rewrite decide_False].
Qed.

(** One push into the group of a phase. *)
Lemma push_phase (phase m : string) (a b c d : list string) :
  phase ∈ PHASES →
  match group [("Macro", a); ("Integrity", b); ("Expansion", c); ("Execution", d)]
              phase with
  | Some _ =>
      push [("Macro", a); ("Integrity", b); ("Expansion", c); ("Execution", d)]
           phase m
  | None => [("Macro", a); ("Integrity", b); ("Expansion", c); ("Execution", d)]
  end
  = [("Macro", a ++ if bool_decide (phase = "Macro") then [m] else []);
     ("Integrity", b ++ if bool_decide (phase = "Integrity") then [m] else []);
     ("Expansion", c ++ if bool_decide (phase = "Expansion") then [m] else []);
     ("Execution", d ++ if bool_decide (phase = "Execution") then [m] else [])].
Proof.
  intros [-> | [-> | [-> | ->]]]%PHASES_cases; cbn;
    repeat (case_bool_decide; [try done|try done]); cbn;
    by rewrite ?app_nil_r.
Qed.

Lemma forEach_fileEngine (engines a b c d : list string) :
  foldl fileEngine
    [("Macro", a); ("Integrity", b); ("Expansion", c); ("Execution", d)] engines
  = [("Macro", a ++ inPhase "Macro" (plainIds engines));
     ("Integrity", b ++ inPhase "Integrity" (plainIds engines));
     ("Expansion", c ++ inPhase "Expansion" (plainIds engines));
     ("Execution", d ++ inPhase "Execution" (plainIds engines))].
Proof.
  revert a b c d. induction engines as [|m engines IH]; intros a b c d.
  - cbn [foldl]. unfold plainIds, inPhase. rewrite !filter_nil.
    by rewrite !app_nil_r.
  - cbn [foldl]. rewrite plainIds_cons, phaseOf_spec.
    case_bool_decide as Hm; [apply IH|].
    rewrite push_phase by apply catalogPhase_range.
    rewrite IH, !inPhase_cons. by rewrite <- !app_assoc.
Qed.

(** The groups are the filters by phase of the ids that name no inherited
    property; an id that does is in no group. *)
Lemma enginesByPhase_inPhase (engines : list string) :
  enginesByPhase engines
  = [("Macro", inPhase "Macro" (plainIds engines));
     ("Integrity", inPhase "Integrity" (plainIds engines));
     ("Expansion", inPhase "Expansion" (plainIds engines));
     ("Execution", inPhase "Execution" (plainIds engines))].
Proof. unfold enginesByPhase. by rewrite forEach_fileEngine. Qed.

Lemma elem_of_inPhase (phase m : string) (engines : list string) :
  m ∈ inPhase phase engines ↔ catalogPhase m = phase ∧ m ∈ engines.
Proof. unfold inPhase. by rewrite list_elem_of_filter. Qed.

Lemma group_enginesByPhase (engines : list string) (phase : string) :
  group (enginesByPhase engines) phase
  = if bool_decide (phase ∈ PHASES) then Some (inPhase phase (plainIds engines))
    else None.
Proof.
  rewrite enginesByPhase_inPhase. unfold group.
  destruct (decide (phase ∈ PHASES)) as [Hp|Hp].
  - rewrite (bool_decide_eq_true_2 _ Hp).
    by destruct (PHASES_cases _ Hp) as [-> | [-> | [-> | ->]]].
  - rewrite (bool_decide_eq_false_2 _ Hp).
    unfold PHASES in Hp. rewrite !not_elem_of_cons in Hp.
    destruct Hp as (? & ? & ? & ? & _). cbn.
    by repeat (case_bool_decide; [congruence|]).
Qed.

(** The four filters of an array by phase hold every entry once. *)
Lemma inPhase_Permutation (engines : list string) :
  inPhase "Macro" engines ++ inPhase "Integrity" engines
  ++ inPhase "Expansion" engines ++ inPhase "Execution" engines
  ≡ₚ engines.
Proof.
  induction engines as [|m engines IH]; [done|].
  unfold inPhase in *. rewrite !filter_cons.
  destruct (PHASES_cases _ (catalogPhase_range m)) as [H|[H|[H|H]]];
    rewrite H; repeat (case_decide; [try done|try done]); simpl.
  - by rewrite IH.
  - rewrite <- Permutation_middle. by rewrite IH.
  - rewrite (app_assoc (filter _ _)), <- Permutation_middle.
    by rewrite <- app_assoc, IH.
  - rewrite 2!app_assoc, <- Permutation_middle.
    by rewrite <- !app_assoc, IH.
Qed.

(** The groups together hold the ids that name no inherited property, each
    entry once. *)
Lemma enginesByPhase_Permutation (engines : list string) :
  concat (enginesByPhase engines).*2 ≡ₚ plainIds engines.
Proof.
  rewrite enginesByPhase_inPhase. simpl. rewrite app_nil_r.
  apply inPhase_Permutation.
Qed.

(** C4. The grouping does not place every active module id: an id that
    names a property inherited from [Object.prototype] has no phase entry,
    yet it is not filed under 'Execution' but left out of all four groups.
    With a catalog whose intent recommends 'toString' the active engines are
    'geopolitics', 'final_review' and 'toString', and the groups hold the
    first two only. *)
Theorem enginesByPhase_drops_inherited :
  activeEngines [mkIntent "audit" "Audit" "" ["toString"] ["All"]]
    (sampleParams (Some ["audit"]) (Some "audit"))
  = ["geopolitics"; "final_review"; "toString"]
  ∧ MODULE_PHASES !! "toString" = None
  ∧ enginesByPhase ["geopolitics"; "final_review"; "toString"]
    = [("Macro", ["geopolitics"]); ("Integrity", []);
       ("Expansion", []); ("Execution", ["final_review"])]
  ∧ "toString" ∉ concat (enginesByPhase ["geopolitics"; "final_review"; "toString"]).*2.
Proof.
  split_and!; [by vm_compute..|].
  apply (bool_decide_unpack _). by vm_compute.
Qed.

(** C6. With no intent selected (an empty or absent selection) the active
    engines are exactly 'geopolitics' and 'final_review', and the grouping
    files each under the phase the catalog gives it: 'geopolitics' under
    Macro, 'final_review' under Execution, the other two phases empty. *)
Theorem activeEngines_empty_selection
    (STRATEGIC_INTENTS : list StrategicIntent) (params : ReportParameters) :
  or_else (selectedIntents params) [] = [] →
  activeEngines STRATEGIC_INTENTS params = ["geopolitics"; "final_review"]
  ∧ enginesByPhase (activeEngines STRATEGIC_INTENTS params)
    = [("Macro", ["geopolitics"]); ("Integrity", []);
       ("Expansion", []); ("Execution", ["final_review"])]
  ∧ MODULE_PHASES !! "geopolitics" = Some "Macro"
  ∧ MODULE_PHASES !! "final_review" = Some "Execution".
Proof.
  intros Hsel.
  assert (activeEngines STRATEGIC_INTENTS params = ["geopolitics"; "final_review"])
    as Hactive by (unfold activeEngines; by rewrite Hsel).
  rewrite Hactive. split_and!; [done|by vm_compute..].
Qed.

(** ** Selection *)

Lemma elem_of_toggleIntent (params : ReportParameters) (a x : string) :
  x ∈ selection (toggleIntent params a)
  ↔ (x ∈ selection params ∧ x ≠ a) ∨ (x = a ∧ a ∉ selection params).
Proof.
  unfold selection, toggleIntent. cbn [selectedIntents or_else].
  case_bool_decide as Ha.
  - rewrite list_elem_of_filter. tauto.
  - rewrite elem_of_app, list_elem_of_singleton.
    destruct (decide (x = a)) as [->|]; tauto.
Qed.

Lemma toggles_cons (x i : string) (ids : list string) :
  toggles x (i :: ids) = if decide (i = x) then S (toggles x ids) else toggles x ids.
Proof. unfold toggles. rewrite filter_cons. by case_decide. Qed.

(** After a sequence of toggles an id is selected exactly when it was
    selected before and toggled an even number of times, or was not and was
    toggled an odd number of times. *)
Lemma elem_of_foldl_toggleIntent (ids : list string) (params : ReportParameters)
    (x : string) :
  x ∈ selection (foldl toggleIntent params ids)
  ↔ if Nat.odd (toggles x ids) then x ∉ selection params
    else x ∈ selection params.
Proof.
  revert params. induction ids as [|i ids IH]; intros params; [done|].
  cbn [foldl]. rewrite IH, toggles_cons.
  pose proof (elem_of_toggleIntent params i x) as Ht.
  case_decide as Hi.
  - subst i. rewrite Nat.odd_succ, <- Nat.negb_odd.
    destruct (Nat.odd (toggles x ids)); simpl;
      destruct (decide (x ∈ selection params)); tauto.
  - assert (x ≠ i) by congruence.
    destruct (Nat.odd (toggles x ids)); tauto.
Qed.

(** C9. Which ids are selected does not depend on the order of the toggles:
    from any selection, toggling a then b selects the same ids as toggling b
    then a; toggling one id twice selects the ids selected before; and after
    any sequence of toggles an id is selected exactly when the number of its
    toggles is odd and it was not selected at the start, or even and it
    was. *)
Theorem toggleIntent_membership (params : ReportParameters) (a b : string) :
  (∀ x, x ∈ selection (toggleIntent (toggleIntent params a) b)
        ↔ x ∈ selection (toggleIntent (toggleIntent params b) a))
  ∧ (∀ x, x ∈ selection (toggleIntent (toggleIntent params a) a)
          ↔ x ∈ selection params)
  ∧ (∀ (ids : list string) x,
       x ∈ selection (foldl toggleIntent params ids)
       ↔ if Nat.odd (toggles x ids) then x ∉ selection params
         else x ∈ selection params).
Proof.
  split_and!.
  - intros x. rewrite !elem_of_toggleIntent.
    destruct (decide (x = a)), (decide (x = b)),
      (decide (a ∈ selection params)), (decide (b ∈ selection params));
      subst; intuition congruence.
  - intros x. rewrite !elem_of_toggleIntent.
    destruct (decide (x = a)), (decide (a ∈ selection params));
      subst; intuition congruence.
  - intros ids x. apply elem_of_foldl_toggleIntent.
Qed.

Lemma toggleIntent_primaryAgrees (params : ReportParameters) (a : string) :
  primaryAgrees (toggleIntent params a).
Proof.
  unfold primaryAgrees, selection, toggleIntent. cbn [selectedIntents selectedIntent or_else].
  by destruct (if bool_decide _ then _ else _).
Qed.

(** Every handler but [toggleIntent] hands both selection fields on as it
    found them in its [params]. *)
Lemma studioStep_keeps_selection (STRATEGIC_INTENTS : list StrategicIntent)
    (params : ReportParameters) (ev : StudioEvent) :
  isToggle ev = false →
  selectedIntents (studioStep STRATEGIC_INTENTS params ev) = selectedIntents params
  ∧ selectedIntent (studioStep STRATEGIC_INTENTS params ev) = selectedIntent params.
Proof.
  destruct ev as [a| |file|e]; intros Hev; [done|..]; cbn [studioStep].
  - unfold handleProceedToCanvas.
    destruct (selectedIntents params) as [ids|] eqn:Hids; [|done].
    by destruct (falsy _ && _).
  - by destruct file.
  - done.
Qed.

(** What [handleInitialThoughtAnalysis] hands to [onParamsChange] differs
    from the parameters it was started on in the problem statement only. *)
Lemma handleInitialThoughtAnalysis_keeps (params params' : ReportParameters)
    (refined : Settled string) :
  handleInitialThoughtAnalysis params refined = Some params' →
  ∃ st, params' = with_problemStatement params st.
Proof.
  unfold handleInitialThoughtAnalysis.
  destruct (falsy _); [done|]. destruct refined as [r|]; [|done].
  intros [= <-]. by exists r.
Qed.

Lemma studioStep_primaryAgrees (STRATEGIC_INTENTS : list StrategicIntent)
    (params : ReportParameters) (ev : StudioEvent) :
  primaryAgrees params → primaryAgrees (studioStep STRATEGIC_INTENTS params ev).
Proof.
  intros Hp. destruct (isToggle ev) eqn:Hev.
  - destruct ev; try done. apply toggleIntent_primaryAgrees.
  - destruct (studioStep_keeps_selection STRATEGIC_INTENTS params ev Hev) as [Hs Hi].
    unfold primaryAgrees, selection in *. by rewrite Hs, Hi.
Qed.

(** An invariant of the parameters the studio holds: a property that the
    handlers keep, each on the parameters it was called with, holds of
    whatever the parent holds after any sequence of actions, also when a
    refinement settles late. *)
Lemma studioActs_invariant (STRATEGIC_INTENTS : list StrategicIntent)
    (P : ReportParameters → Prop) (params : ReportParameters)
    (acts : list StudioAction) :
  (∀ p ev, P p → P (studioStep STRATEGIC_INTENTS p ev)) →
  (∀ p st, P p → P (with_problemStatement p st)) →
  P params →
  P (held (studioActs STRATEGIC_INTENTS (mkStudio params false []) acts)).
Proof.
  intros Hstep Hstmt Hp.
  assert (let st := studioActs STRATEGIC_INTENTS (mkStudio params false []) acts in
          P (held st) ∧ Forall P (captured st)) as [H _]; [|done].
  induction acts as [|a acts IH] using rev_ind; [by cbn|].
  unfold studioActs in *. rewrite foldl_app. cbn [foldl]. cbn zeta in *.
  destruct (foldl (studioAct STRATEGIC_INTENTS) (mkStudio params false []) acts)
    as [h flag cap].
  cbn [held captured] in IH. destruct IH as [Hh Hcap].
  destruct a; cbn [studioAct held captured]; try (split; [by apply Hstep|done]).
  - destruct (_ || _); [done|]. cbn [held captured]. split; [done|].
    apply Forall_app. split; [done|]. by apply Forall_singleton.
  - destruct cap as [|p rest]; [done|]. cbn [held captured].
    apply Forall_cons in Hcap as [Hp' Hrest]. split; [|done].
    destruct (handleInitialThoughtAnalysis p refined) as [q|] eqn:Hq; [|done].
    apply handleInitialThoughtAnalysis_keeps in Hq as [st ->]. simpl.
    by apply Hstmt.
Qed.

(** C10. The selection is not changed by toggles alone. A thought
    refinement hands [onParamsChange] the parameters it captured when it was
    started, so one that settles after a toggle puts the earlier
    [selectedIntents] and [selectedIntent] back: with nothing selected, after
    Refine is clicked and 'partnership' is toggled the selection holds
    'partnership', and once the refinement is fulfilled both fields are
    undefined again. Started on parameters where the legacy field does not
    agree with the selection, the same sequence leaves them disagreeing
    although an intent has been toggled. *)
Theorem refinement_overwrites_selection :
  selectedIntents
    (held (studioActs sampleIntents (mkStudio (sampleParams None None) false [])
             [ClickRefine; Toggles "partnership"]))
  = Some ["partnership"]
  ∧ selectedIntent
      (held (studioActs sampleIntents (mkStudio (sampleParams None None) false [])
               [ClickRefine; Toggles "partnership"]))
    = Some "partnership"
  ∧ selectedIntents
      (held (studioActs sampleIntents (mkStudio (sampleParams None None) false [])
               [ClickRefine; Toggles "partnership";
                RefineSettles (Fulfilled "Diversify supply")]))
    = None
  ∧ selectedIntent
      (held (studioActs sampleIntents (mkStudio (sampleParams None None) false [])
               [ClickRefine; Toggles "partnership";
                RefineSettles (Fulfilled "Diversify supply")]))
    = None
  ∧ primaryAgrees
      (held (studioActs sampleIntents
               (mkStudio (sampleParams (Some ["market_entry"]) None) false [])
               [ClickRefine; Toggles "partnership"]))
  ∧ ¬ primaryAgrees
        (held (studioActs sampleIntents
                 (mkStudio (sampleParams (Some ["market_entry"]) None) false [])
                 [ClickRefine; Toggles "partnership";
                  RefineSettles (Fulfilled "Diversify supply")])).
Proof. split_and!; [reflexivity..|]. intros H. discriminate H. Qed.

(** ** The request router *)

Lemma selectAgent_run (userMsg : string) (s : Session) :
  ∃ (tag : AgentType) (status : string),
    selectAgent userMsg s
    = (Normal (),
       {| messages := messages s; inputText := inputText s;
          activeAgent := Some tag; agentStatus := status;
          consoleLog := consoleLog s; requests := requests s |})
    ∧ tag
      = if JsString.includes (JsString.toLowerCase userMsg) "news"
           || JsString.includes (JsString.toLowerCase userMsg) "search"
        then scout
        else if JsString.includes (JsString.toLowerCase userMsg) "negotiate"
             then diplomat
             else strategist.
Proof.
  unfold selectAgent.
  destruct (_ || _); [|destruct (JsString.includes _ "negotiate")];
    eexists _, _; (split; [reflexivity|done]).
Qed.

(** C1. For every text the router sets exactly one agent, and does so by
    the case-insensitive substring test in the fixed order: scout exactly
    when the text mentions "news" or "search"; diplomat exactly when it
    mentions neither and mentions "negotiate"; strategist exactly when it
    mentions none of the three. A text that mentions both "news" and
    "negotiate" is given to scout. *)
Theorem selectAgent_classifies (userMsg : string) (s : Session) :
  ∃ tag : AgentType,
    (selectAgent userMsg s).1 = Normal ()
    ∧ activeAgent (selectAgent userMsg s).2 = Some tag
    ∧ (tag = scout ↔ mentions "news" userMsg ∨ mentions "search" userMsg)
    ∧ (tag = diplomat
       ↔ ¬ (mentions "news" userMsg ∨ mentions "search" userMsg)
         ∧ mentions "negotiate" userMsg)
    ∧ (tag = strategist
       ↔ ¬ (mentions "news" userMsg ∨ mentions "search" userMsg)
         ∧ ¬ mentions "negotiate" userMsg)
    ∧ (mentions "news" userMsg → mentions "negotiate" userMsg → tag = scout).
Proof.
  destruct (selectAgent_run userMsg s) as (tag & status & -> & Htag).
  exists tag. cbn [fst snd activeAgent].
  rewrite <- !includes_toLowerCase_spec by done.
  destruct (JsString.includes _ "news"), (JsString.includes _ "search"),
    (JsString.includes _ "negotiate"); simpl in Htag; subst tag;
    split_and!; try done; intuition congruence.
Qed.

Section Router.

Context (params : ReportParameters).
Context (orchestrateAgentResponse : string → string → Settled AgentResponse).

(** The [try] statement completes normally however the responder settles,
    and leaves one more message, one more request and a cleared status. *)
Lemma respond_run (userMsg : string) (s : Session) :
  respond params orchestrateAgentResponse userMsg s
  = (Normal (),
     {| messages :=
          messages s
          ++ [match orchestrateAgentResponse userMsg (context params) with
              | Fulfilled response =>
                  {| sender := ai; text := content response;
                     agent := response_agent response;
                     sources := response_sources response |}
              | Rejected _ => fallbackMessage
              end];
        inputText := inputText s;
        activeAgent := None;
        agentStatus := "";
        consoleLog :=
          consoleLog s
          ++ match orchestrateAgentResponse userMsg (context params) with
             | Fulfilled _ => []
             | Rejected e => ["Chat Error" +:+ " " +:+ e]
             end;
        requests := requests s ++ [(userMsg, context params)] |}).
Proof.
  unfold respond, try_catch_finally, awaitResponse, mbind, Action_bind.
  destruct (orchestrateAgentResponse userMsg (context params)); cbn;
    by rewrite ?app_nil_r.
Qed.

Lemma handleSendMessage_run (s : Session) :
  handleSendMessage params orchestrateAgentResponse s
  = if JsString.truthy (JsString.trim (inputText s))
    then respond params orchestrateAgentResponse (inputText s)
           (selectAgent (inputText s)
              {| messages := messages s ++ [userMessage (inputText s)];
                 inputText := ""; activeAgent := activeAgent s;
                 agentStatus := agentStatus s; consoleLog := consoleLog s;
                 requests := requests s |}).2
    else (Normal (), s).
Proof.
  unfold handleSendMessage, mbind, Action_bind, getInputText.
  destruct (JsString.truthy _); [|done].
  unfold userMessage. cbn. set (t := mkSession _ "" _ _ _ _).
  by destruct (selectAgent_run (inputText s) t) as (tag & status & -> & _).
Qed.

(** C8. Submitting a text that is empty or made of white space only does
    nothing: the handler returns at once and leaves the session as it was,
    so no message is appended, no agent is set and no request is sent to the
    responder. *)
Theorem handleSendMessage_blank (s : Session) :
  whitespaceOnly (inputText s) →
  handleSendMessage params orchestrateAgentResponse s = (Normal (), s).
Proof.
  intros Hblank%trim_falsy. by rewrite handleSendMessage_run, Hblank.
Qed.

(** C2. The handler never completes abruptly. For a text that is not blank
    it asks the responder once and returns with the processing status cleared
    (no active agent, empty status string) whether the responder fulfils or
    rejects; and when the responder rejects, the transcript has grown by the
    user's message and the fixed fallback reply, which carries no agent and
    no sources. For a blank text the responder is not asked. *)
Theorem handleSendMessage_recovers (s : Session) :
  (handleSendMessage params orchestrateAgentResponse s).1 = Normal ()
  ∧ (¬ whitespaceOnly (inputText s) →
     requests (handleSendMessage params orchestrateAgentResponse s).2
     = requests s ++ [(inputText s, context params)]
     ∧ activeAgent (handleSendMessage params orchestrateAgentResponse s).2 = None
     ∧ agentStatus (handleSendMessage params orchestrateAgentResponse s).2 = ""
     ∧ ∀ reason,
         orchestrateAgentResponse (inputText s) (context params) = Rejected reason →
         messages (handleSendMessage params orchestrateAgentResponse s).2
         = messages s ++ [userMessage (inputText s); fallbackMessage])
  ∧ (whitespaceOnly (inputText s) →
     requests (handleSendMessage params orchestrateAgentResponse s).2 = requests s).
Proof.
  rewrite handleSendMessage_run.
  destruct (JsString.truthy (JsString.trim (inputText s))) eqn:Htrim.
  - rewrite respond_run. split_and!; [done| |].
    + intros _.
      match goal with |- context [selectAgent ?m ?t] =>
        destruct (selectAgent_run m t) as (tag & status & -> & _) end.
      cbn [snd messages requests activeAgent agentStatus].
      split_and!; [done..|].
      intros reason ->. by rewrite <- app_assoc.
    + intros Hblank%trim_falsy. congruence.
  - split_and!; [done| |done]. intros Hblank. by apply trim_falsy in Htrim.
Qed.

End Router.

(** ** Examples *)

(** The three routing examples of the specification. *)
Example route_news :
  activeAgent (selectAgent "Find recent news on tariffs" (sampleSession "")).2
  = Some scout.
Proof. reflexivity. Qed.

Example route_negotiate :
  activeAgent (selectAgent "Help me negotiate this deal" (sampleSession "")).2
  = Some diplomat.
Proof. reflexivity. Qed.

Example route_default :
  activeAgent (selectAgent "Build a market entry plan" (sampleSession "")).2
  = Some strategist.
Proof. reflexivity. Qed.

Example route_mixed_case :
  activeAgent (selectAgent "NEGOTIATE after the News" (sampleSession "")).2
  = Some scout.
Proof. reflexivity. Qed.

(** A module id that has no phase entry is filed under 'Execution'. *)
Example resolve_partnership :
  enginesByPhase
    (activeEngines sampleIntents (sampleParams (Some ["partnership"]) (Some "partnership")))
  = [("Macro", ["geopolitics"; "rroi"]);
     ("Integrity", ["due_diligence"]);
     ("Expansion", ["symbiotic_matchmaking"]);
     ("Execution", ["final_review"; "cultural_intel"; "custom_probe"])].
Proof. vm_compute. reflexivity. Qed.

Example send_while_down :
  handleSendMessage (sampleParams None None) failingResponder
    (sampleSession "Any news?")
  = (Normal (),
     {| messages :=
          messages (sampleSession "")
          ++ [userMessage "Any news?"; fallbackMessage];
        inputText := "";
        activeAgent := None;
        agentStatus := "";
        consoleLog := ["Chat Error 503"];
        requests :=
          [("Any news?",
            "User is a Corporate in Vietnam. Industry: Manufacturing, Logistics.")] |}).
Proof. vm_compute. reflexivity. Qed.

(** ** Instances of the theorems on the sample data *)

Lemma activeEngines_baseline_determined_witness :
  "geopolitics" ∈ activeEngines sampleIntents (sampleParams (Some ["bogus"]) None)
  ∧ activeEngines sampleIntents (sampleParams (Some ["market_entry"]) None)
    = activeEngines sampleIntents
        (sampleParams (Some ["market_entry"]) (Some "market_entry")).
Proof.
  split.
  - apply (activeEngines_baseline_determined sampleIntents
             (sampleParams (Some ["bogus"]) None)).
  - apply (activeEngines_baseline_determined sampleIntents
             (sampleParams (Some ["market_entry"]) (Some "market_entry"))).
    reflexivity.
Defined.

Lemma activeEngines_monotone_witness :
  or_else (Some ["market_entry"]) [] ⊆ or_else (Some ["partnership"; "market_entry"]) []
  ∧ activeEngines sampleIntents (sampleParams (Some ["market_entry"]) None)
    ⊆ activeEngines sampleIntents
        (sampleParams (Some ["partnership"; "market_entry"]) None).
Proof.
  split.
  - apply (bool_decide_unpack _). vm_compute. exact I.
  - apply (activeEngines_monotone sampleIntents).
    apply (bool_decide_unpack _). vm_compute. exact I.
Defined.

Lemma activeEngines_empty_selection_witness :
  or_else (selectedIntents (sampleParams None None)) [] = []
  ∧ activeEngines sampleIntents (sampleParams None None)
    = ["geopolitics"; "final_review"].
Proof.
  split.
  - reflexivity.
  - apply (activeEngines_empty_selection sampleIntents (sampleParams None None)).
    reflexivity.
Defined.

Lemma activeEngines_ignores_unknown_witness :
  selectedIntents (sampleParams (Some ["market_entry"]) None)
  = Some (filter (λ i, i ∈ id <$> sampleIntents)
                 (or_else (selectedIntents
                             (sampleParams (Some ["bogus"; "market_entry"; "nope"]) None))
                          []))
  ∧ activeEngines sampleIntents (sampleParams (Some ["market_entry"]) None)
    = activeEngines sampleIntents
        (sampleParams (Some ["bogus"; "market_entry"; "nope"]) None).
Proof.
  split.
  - vm_compute. reflexivity.
  - apply (activeEngines_ignores_unknown sampleIntents).
    vm_compute. reflexivity.
Defined.

Lemma handleSendMessage_blank_witness :
  whitespaceOnly (inputText (sampleSession "   "))
  ∧ handleSendMessage (sampleParams None None) echoResponder (sampleSession "   ")
    = (Normal (), sampleSession "   ").
Proof.
  split.
  - apply (bool_decide_unpack _). vm_compute. exact I.
  - apply (handleSendMessage_blank (sampleParams None None) echoResponder).
    apply (bool_decide_unpack _). vm_compute. exact I.
Defined.

Lemma handleSendMessage_recovers_witness :
  ¬ whitespaceOnly (inputText (sampleSession "Any news?"))
  ∧ failingResponder "Any news?" (context (sampleParams None None)) = Rejected "503"
  ∧ messages
      (handleSendMessage (sampleParams None None) failingResponder
         (sampleSession "Any news?")).2
    = messages (sampleSession "Any news?")
      ++ [userMessage "Any news?"; fallbackMessage].
Proof.
  split_and!.
  - apply (bool_decide_unpack _). vm_compute. exact I.
  - reflexivity.
  - destruct (handleSendMessage_recovers (sampleParams None None) failingResponder
                (sampleSession "Any news?")) as (_ & Hrun & _).
    destruct Hrun as (_ & _ & _ & Hfail).
    + apply (bool_decide_unpack _). vm_compute. exact I.
    + apply (Hfail "503"). reflexivity.
Defined.

Lemma selectAgent_classifies_witness :
  mentions "news" "Negotiate the NEWS" ∧ mentions "negotiate" "Negotiate the NEWS"
  ∧ activeAgent (selectAgent "Negotiate the NEWS" (sampleSession "")).2 = Some scout.
Proof.
  split_and!.
  - exists "Negotiate the ", "NEWS", "". split; reflexivity.
  - exists "", "Negotiate", " the NEWS". split; reflexivity.
  - destruct (selectAgent_classifies "Negotiate the NEWS" (sampleSession ""))
      as (tag & _ & Htag & _ & _ & _ & Hboth).
    rewrite Htag. f_equal. apply Hboth.
    + exists "Negotiate the ", "NEWS", "". split; reflexivity.
    + exists "", "Negotiate", " the NEWS". split; reflexivity.
Defined.

(* ===================================================================== *)
(** * Part III: further properties of the handlers and the resolver *)
(* ===================================================================== *)

(** ** Selection handlers *)

Lemma toggleIntent_selection (params : ReportParameters) (a : string) :
  selection (toggleIntent params a)
  = if bool_decide (a ∈ selection params)
    then filter (λ i, i ≠ a) (selection params)
    else selection params ++ [a].
Proof. reflexivity. Qed.

Lemma filter_ne_absent (a : string) (l : list string) :
  a ∉ l → filter (λ i, i ≠ a) l = l.
Proof.
  induction l as [|x l IH]; [done|].
  rewrite not_elem_of_cons, filter_cons. intros [Hx Hl].
  rewrite decide_True by congruence. by rewrite IH.
Qed.

Lemma toggleIntent_NoDup (params : ReportParameters) (a : string) :
  NoDup (selection params) → NoDup (selection (toggleIntent params a)).
Proof.
  intros Hnd. rewrite toggleIntent_selection. case_bool_decide as Ha.
  - by apply NoDup_filter.
  - apply NoDup_app. split_and!; [done| |apply NoDup_singleton].
    intros x Hx ->%list_elem_of_singleton. done.
Qed.

(** Toggling never selects an id twice: from a duplicate-free selection
    every sequence of studio actions (toggles, proceeding, uploads, form
    edits, and refinements that settle at any later point) leads to a
    duplicate-free selection. *)
Theorem studioActs_selection_NoDup (STRATEGIC_INTENTS : list StrategicIntent)
    (params : ReportParameters) (acts : list StudioAction) :
  NoDup (selection params) →
  NoDup (selection
           (held (studioActs STRATEGIC_INTENTS (mkStudio params false []) acts))).
Proof.
  apply (studioActs_invariant STRATEGIC_INTENTS (λ p, NoDup (selection p))).
  - intros p ev Hnd. destruct (isToggle ev) eqn:Hev.
    + destruct ev; try done. by apply toggleIntent_NoDup.
    + destruct (studioStep_keeps_selection STRATEGIC_INTENTS p ev Hev) as [Hs _].
      unfold selection in *. by rewrite Hs.
  - done.
Qed.

(** Selecting an intent and deselecting it again is a round trip: when the
    id was not selected and the legacy field agreed with the selection, the
    two toggles give the parameters back as they were. *)
Theorem toggleIntent_round_trip (params : ReportParameters)
    (l : list string) (a : string) :
  selectedIntents params = Some l →
  a ∉ l →
  primaryAgrees params →
  toggleIntent (toggleIntent params a) a = params.
Proof.
  destruct params as [sel prim ps it fn doc ot ost rg ind oth].
  unfold primaryAgrees, selection. cbn [selectedIntents selectedIntent or_else].
  intros -> Ha ->. unfold toggleIntent. cbn [selectedIntents or_else].
  rewrite (bool_decide_eq_false_2 (a ∈ l)) by done.
  rewrite (bool_decide_eq_true_2 (a ∈ l ++ [a])) by set_solver.
  rewrite filter_app, filter_ne_absent by done.
  rewrite filter_cons, decide_False by (intros ?; done).
  rewrite filter_nil, app_nil_r. cbn [problemStatement initialThought
    uploadedFileName uploadedDocument organizationType organizationSubType
    region industry others].
  f_equal. by destruct l.
Qed.

(** Toggling any id but the primary one leaves the primary intent alone,
    whether the toggle selects or deselects. *)
Theorem toggleIntent_keeps_primary (params : ReportParameters) (a b : string) :
  head (selection params) = Some b →
  a ≠ b →
  selectedIntent (toggleIntent params a) = Some b.
Proof.
  intros Hhead Hab.
  rewrite (toggleIntent_primaryAgrees params a), toggleIntent_selection.
  destruct (selection params) as [|x l]; [done|].
  injection Hhead as ->. case_bool_decide.
  - rewrite filter_cons, decide_True by congruence. done.
  - done.
Qed.

Section Proceed.

Context (STRATEGIC_INTENTS : list StrategicIntent).

Lemma mission_truthy (s : string) :
  JsString.truthy ("Strategic Mission: " +:+ s) = true.
Proof. reflexivity. Qed.

(** With an intent selected (the condition under which its button is
    enabled), [handleProceedToCanvas] leaves a non-empty problem statement:
    one that was there is kept, parameters and all, and a missing or empty
    one becomes the mission line of the selected titles. *)
Theorem handleProceedToCanvas_statement (params : ReportParameters) :
  selection params ≠ [] →
  ∃ st,
    problemStatement (studioStep STRATEGIC_INTENTS params ProceedToCanvas) = Some st
    ∧ JsString.truthy st = true
    ∧ (falsy (problemStatement params) = false →
       studioStep STRATEGIC_INTENTS params ProceedToCanvas = params)
    ∧ (falsy (problemStatement params) = true →
       st = "Strategic Mission: "
            +:+ JsString.join " + "
                  (map (λ i, from_option title "" (findIntent STRATEGIC_INTENTS i))
                       (selection params))).
Proof.
  unfold selection. cbn [studioStep]. unfold handleProceedToCanvas.
  destruct (selectedIntents params) as [ids|] eqn:Hids; [|done].
  cbn [or_else]. intros Hne.
  assert ((0 <? length ids) = true) as -> by (destruct ids; done).
  rewrite andb_true_r. destruct (falsy (problemStatement params)) eqn:Hf.
  - eexists. cbn. split_and!; [done|apply mission_truthy|done|done].
  - cbn [default]. unfold falsy in Hf.
    destruct (problemStatement params) as [st|]; [|done].
    exists st. split_and!; [done| |done|done].
    by destruct (JsString.truthy st).
Qed.

Lemma handleProceedToCanvas_once (params params' : ReportParameters) :
  handleProceedToCanvas STRATEGIC_INTENTS params = Some params' →
  handleProceedToCanvas STRATEGIC_INTENTS params' = None.
Proof.
  unfold handleProceedToCanvas at 1.
  destruct (selectedIntents params) as [ids|] eqn:Hids; [|done].
  destruct (falsy (problemStatement params) && (0 <? length ids)); [|done].
  intros [= <-]. unfold handleProceedToCanvas.
  cbn [selectedIntents problemStatement with_problemStatement falsy].
  rewrite Hids. by rewrite mission_truthy.
Qed.

(** [handleProceedToCanvas] is idempotent: a second call finds the statement
    the first one wrote and changes nothing. *)
Theorem handleProceedToCanvas_idempotent (params : ReportParameters) :
  studioStep STRATEGIC_INTENTS
    (studioStep STRATEGIC_INTENTS params ProceedToCanvas) ProceedToCanvas
  = studioStep STRATEGIC_INTENTS params ProceedToCanvas.
Proof.
  cbn [studioStep].
  destruct (handleProceedToCanvas STRATEGIC_INTENTS params) as [params'|] eqn:H.
  - simpl. by rewrite (handleProceedToCanvas_once _ _ H).
  - simpl. by rewrite H.
Qed.

(** The studio never records a file name without the [uploadedDocument]
    flag: if the flag is set whenever a name is present, that is still so
    after every sequence of studio actions, refinements that settle late
    included. *)
Theorem studioActs_upload_flag (params : ReportParameters)
    (acts : list StudioAction) :
  (is_Some (uploadedFileName params) → uploadedDocument params = Some true) →
  is_Some (uploadedFileName
             (held (studioActs STRATEGIC_INTENTS (mkStudio params false []) acts))) →
  uploadedDocument
    (held (studioActs STRATEGIC_INTENTS (mkStudio params false []) acts))
  = Some true.
Proof.
  apply (studioActs_invariant STRATEGIC_INTENTS
           (λ p, is_Some (uploadedFileName p) → uploadedDocument p = Some true)).
  - intros p ev Hp. destruct ev as [a| |file|e]; cbn [studioStep].
    + done.
    + unfold handleProceedToCanvas.
      destruct (selectedIntents p); [|done]. by destruct (_ && _).
    + by destruct file.
    + done.
  - done.
Qed.

End Proceed.

(** ** The resolver and the grouping together *)

Lemma add_extends (s : JsSet.t) (x : string) : s `prefix_of` JsSet.add s x.
Proof.
  unfold JsSet.add. case_decide.
  - done.
  - by apply prefix_app_r.
Qed.

Lemma foldl_add_extends (l : list string) (s : JsSet.t) :
  s `prefix_of` foldl JsSet.add s l.
Proof.
  revert s. induction l as [|x l IH]; intros s; [done|].
  cbn [foldl]. etrans; [apply add_extends|apply IH].
Qed.

Lemma plainIds_id (engines : list string) :
  Forall (λ m, m ∉ Object_prototype) engines → plainIds engines = engines.
Proof.
  induction 1 as [|m engines Hm _ IH]; [done|].
  by rewrite plainIds_cons, bool_decide_eq_false_2, IH.
Qed.

Section Composition.

Context (STRATEGIC_INTENTS : list StrategicIntent).

Local Abbreviation addIntent :=
  (λ (moduleSet : JsSet.t) (intentId : string),
     match findIntent STRATEGIC_INTENTS intentId with
     | Some intent => foldl JsSet.add moduleSet (recommendedModules intent)
     | None => moduleSet
     end).

Lemma forEach_extends (ids : list string) (s : JsSet.t) :
  s `prefix_of` foldl addIntent s ids.
Proof.
  revert s. induction ids as [|i ids IH]; intros s; [done|].
  cbn [foldl]. etrans; [|apply IH].
  destruct (findIntent STRATEGIC_INTENTS i); [apply foldl_add_extends|done].
Qed.

(** The active engines never list a module twice. *)
Theorem activeEngines_NoDup (params : ReportParameters) :
  NoDup (activeEngines STRATEGIC_INTENTS params).
Proof. apply NoDup_activeEngines. Qed.

(** A module is active exactly when it is one of the two baseline modules
    or is recommended by a selected intent that the catalog lists ([find]
    taking the first entry with the id). *)
Theorem activeEngines_members (params : ReportParameters) (m : string) :
  m ∈ activeEngines STRATEGIC_INTENTS params
  ↔ m = "geopolitics" ∨ m = "final_review"
    ∨ ∃ intentId intent,
        intentId ∈ selection params
        ∧ findIntent STRATEGIC_INTENTS intentId = Some intent
        ∧ m ∈ recommendedModules intent.
Proof. apply elem_of_activeEngines. Qed.

Lemma activeEngines_starts (params : ReportParameters) :
  ∃ rest,
    activeEngines STRATEGIC_INTENTS params = "geopolitics" :: "final_review" :: rest.
Proof.
  unfold activeEngines, JsSet.toArray.
  destruct (forEach_extends (or_else (selectedIntents params) [])
              (JsSet.add (JsSet.add JsSet.empty "geopolitics") "final_review"))
    as [rest ->].
  by exists rest.
Qed.

(** The array of active engines always starts with 'geopolitics' and
    'final_review', in this order, so the engine counter never shows less
    than two. *)
Theorem activeEngines_baseline_first (params : ReportParameters) :
  ∃ rest,
    activeEngines STRATEGIC_INTENTS params = "geopolitics" :: "final_review" :: rest
    ∧ 2 ≤ length (activeEngines STRATEGIC_INTENTS params).
Proof.
  destruct (activeEngines_starts params) as [rest Hrest].
  exists rest. split; [done|]. rewrite Hrest. cbn [length]. lia.
Qed.

(** Selecting one more intent keeps the engines shown so far in place and
    appends, after them, exactly the modules of that intent that were not
    active yet. *)
Theorem activeEngines_toggle_appends (params : ReportParameters) (a : string) :
  a ∉ selection params →
  ∃ added,
    activeEngines STRATEGIC_INTENTS (toggleIntent params a)
    = activeEngines STRATEGIC_INTENTS params ++ added
    ∧ ∀ m, m ∈ added
           ↔ (m ∉ activeEngines STRATEGIC_INTENTS params)
             ∧ ∃ intent, findIntent STRATEGIC_INTENTS a = Some intent
                         ∧ m ∈ recommendedModules intent.
Proof.
  intros Ha.
  assert (∃ added, activeEngines STRATEGIC_INTENTS (toggleIntent params a)
                   = activeEngines STRATEGIC_INTENTS params ++ added)
    as [added Hadded].
  { unfold activeEngines, JsSet.toArray.
    change (or_else (selectedIntents (toggleIntent params a)) [])
      with (selection (toggleIntent params a)).
    rewrite toggleIntent_selection, bool_decide_eq_false_2 by done.
    unfold selection. rewrite foldl_app. cbn [foldl].
    destruct (findIntent STRATEGIC_INTENTS a); [apply foldl_add_extends|].
    exists []. by rewrite app_nil_r. }
  exists added. split; [done|]. intros m.
  pose proof (NoDup_activeEngines STRATEGIC_INTENTS (toggleIntent params a)) as Hnd.
  pose proof (elem_of_activeEngines STRATEGIC_INTENTS (toggleIntent params a) m) as Hm'.
  pose proof (elem_of_activeEngines STRATEGIC_INTENTS params m) as Hm.
  rewrite Hadded in Hnd, Hm'. apply NoDup_app in Hnd as (_ & Hdisj & _).
  rewrite elem_of_app in Hm'.
  change (or_else (selectedIntents (toggleIntent params a)) [])
    with (selection (toggleIntent params a)) in Hm'.
  change (or_else (selectedIntents params) []) with (selection params) in Hm.
  split.
  - intros Hin. split; [by intros ?; eapply Hdisj|].
    destruct (proj1 Hm' (or_intror Hin)) as [->|[->|(i & intent & Hi & Hf & Hr)]].
    + exfalso. eapply Hdisj; [|done]. apply Hm. by left.
    + exfalso. eapply Hdisj; [|done]. apply Hm. by right; left.
    + apply elem_of_toggleIntent in Hi as [[Hi _]|[-> _]]; [|by eauto].
      exfalso. eapply Hdisj; [|done]. apply Hm. right; right. eauto.
  - intros [Hnot (intent & Hf & Hr)].
    destruct (proj2 Hm') as [?|?]; [|done..].
    right; right. exists a, intent. split_and!; [|done..].
    apply elem_of_toggleIntent. by right.
Qed.

(** Whatever is selected, the Macro group starts with 'geopolitics' and the
    Execution group with 'final_review': these two phases are never
    empty. *)
Theorem enginesByPhase_baseline_groups (params : ReportParameters) :
  ∃ macro execution,
    group (enginesByPhase (activeEngines STRATEGIC_INTENTS params)) "Macro"
    = Some ("geopolitics" :: macro)
    ∧ group (enginesByPhase (activeEngines STRATEGIC_INTENTS params)) "Execution"
      = Some ("final_review" :: execution).
Proof.
  destruct (activeEngines_starts params) as [rest ->].
  rewrite !group_enginesByPhase.
  exists (inPhase "Macro" (plainIds rest)), (inPhase "Execution" (plainIds rest)).
  split; reflexivity.
Qed.

(** The four groups of the active engines are duplicate-free and pairwise
    disjoint and hold, between them, exactly the active ids that name no
    property inherited from [Object.prototype]. So their sizes add up to at
    most the engine counter, and to the counter itself when no active id is
    such a name. *)
Theorem enginesByPhase_counts (params : ReportParameters) :
  NoDup (concat (enginesByPhase (activeEngines STRATEGIC_INTENTS params)).*2)
  ∧ concat (enginesByPhase (activeEngines STRATEGIC_INTENTS params)).*2
    ≡ₚ plainIds (activeEngines STRATEGIC_INTENTS params)
  ∧ length (concat (enginesByPhase (activeEngines STRATEGIC_INTENTS params)).*2)
    ≤ length (activeEngines STRATEGIC_INTENTS params)
  ∧ (Forall (λ m, m ∉ Object_prototype) (activeEngines STRATEGIC_INTENTS params) →
     length (concat (enginesByPhase (activeEngines STRATEGIC_INTENTS params)).*2)
     = length (activeEngines STRATEGIC_INTENTS params)).
Proof.
  pose proof (enginesByPhase_Permutation (activeEngines STRATEGIC_INTENTS params))
    as Hperm.
  split_and!.
  - rewrite Hperm. apply NoDup_filter, NoDup_activeEngines.
  - done.
  - rewrite Hperm. apply length_filter.
  - intros Hall. by rewrite Hperm, plainIds_id.
Qed.

End Composition.

(** ** The chat handler, step by step *)

Lemma sendBegin_run (params : ReportParameters) (s : Session) :
  (JsString.truthy (JsString.trim (inputText s)) = false
   ∧ sendBegin params s = (Normal None, s))
  ∨ (JsString.truthy (JsString.trim (inputText s)) = true
     ∧ ∃ tag status,
         sendBegin params s
         = (Normal (Some (inputText s, context params)),
            {| messages := messages s ++ [userMessage (inputText s)];
               inputText := "";
               activeAgent := Some tag;
               agentStatus := status;
               consoleLog := consoleLog s;
               requests := requests s ++ [(inputText s, context params)] |})).
Proof.
  unfold sendBegin, mbind, Action_bind, getInputText.
  destruct (JsString.truthy _); [right|left; done]. split; [done|].
  unfold userMessage. cbn. set (t := mkSession _ "" _ _ _ _).
  destruct (selectAgent_run (inputText s) t) as (tag & status & -> & _).
  by exists tag, status.
Qed.

Lemma sendSettle_run (outcome : Settled AgentResponse) (s : Session) :
  sendSettle outcome s
  = (Normal (),
     {| messages := messages s ++ [replyTo outcome];
        inputText := inputText s;
        activeAgent := None;
        agentStatus := "";
        consoleLog :=
          consoleLog s
          ++ match outcome with
             | Fulfilled _ => []
             | Rejected e => ["Chat Error" +:+ " " +:+ e]
             end;
        requests := requests s |}).
Proof.
  unfold sendSettle, try_catch_finally, resume, mbind, Action_bind.
  destruct outcome; cbn; by rewrite ?app_nil_r.
Qed.

(** [handleSendMessage] is [sendBegin] followed, when a request was sent,
    by [sendSettle] on what the responder settles with. *)
Lemma handleSendMessage_split (params : ReportParameters)
    (orchestrateAgentResponse : string → string → Settled AgentResponse)
    (s : Session) :
  handleSendMessage params orchestrateAgentResponse s
  = match sendBegin params s with
    | (Normal (Some (userMsg, context)), s') =>
        sendSettle (orchestrateAgentResponse userMsg context) s'
    | (Normal None, s') => (Normal (), s')
    | (Throw e, s') => (Throw e, s')
    end.
Proof.
  rewrite handleSendMessage_run.
  destruct (sendBegin_run params s) as [[Ht ->]|[Ht (tag & status & ->)]];
    rewrite Ht; [done|].
  rewrite sendSettle_run, respond_run.
  set (t := mkSession _ "" _ _ _ _).
  destruct (selectAgent_run (inputText s) t) as (tag' & status' & -> & _).
  cbn. by destruct (orchestrateAgentResponse _ _).
Qed.

Section Delivery.

Context (params : ReportParameters).
Context (orchestrateAgentResponse : string → string → Settled AgentResponse).

(** When the responder fulfils, the reply in the transcript is the
    responder's: its content, its agent and its sources, unchanged. The agent
    the panel showed while waiting does not enter the message. The input is
    cleared, the user's message keeps the text as typed, and nothing is
    written to the console. *)
Theorem handleSendMessage_delivers (s : Session) (response : AgentResponse) :
  ¬ whitespaceOnly (inputText s) →
  orchestrateAgentResponse (inputText s) (context params) = Fulfilled response →
  handleSendMessage params orchestrateAgentResponse s
  = (Normal (),
     {| messages :=
          messages s
          ++ [userMessage (inputText s);
              {| sender := ai; text := content response;
                 agent := response_agent response;
                 sources := response_sources response |}];
        inputText := "";
        activeAgent := None;
        agentStatus := "";
        consoleLog := consoleLog s;
        requests := requests s ++ [(inputText s, context params)] |}).
Proof.
  intros Hblank Hr. rewrite handleSendMessage_split.
  destruct (sendBegin_run params s) as [[Ht _]|[_ (tag & status & ->)]].
  - by apply trim_falsy in Ht.
  - rewrite sendSettle_run, Hr. cbn. by rewrite app_nil_r, <- app_assoc.
Qed.

(** Submitting again right after a submission does nothing: the first one
    has emptied the input, or was itself stopped by the guard. *)
Theorem handleSendMessage_twice (s : Session) :
  handleSendMessage params orchestrateAgentResponse
    (handleSendMessage params orchestrateAgentResponse s).2
  = (Normal (), (handleSendMessage params orchestrateAgentResponse s).2).
Proof.
  rewrite (handleSendMessage_run _ _ (_.2)).
  assert (JsString.truthy (JsString.trim
            (inputText (handleSendMessage params orchestrateAgentResponse s).2))
          = false) as ->; [|done].
  rewrite handleSendMessage_split.
  destruct (sendBegin_run params s) as [[Ht ->]|[_ (tag & status & ->)]]; [done|].
  by rewrite sendSettle_run.
Qed.

End Delivery.

(** ** The panel under interleaved events *)

Lemma messagesOf_snoc (who : Sender) (l : list ChatMessage) (m : ChatMessage) :
  filter (λ m, sender m = who) (l ++ [m])
  = filter (λ m, sender m = who) l
    ++ (if decide (sender m = who) then [m] else []).
Proof. rewrite filter_app, filter_cons, filter_nil. by case_decide. Qed.

Lemma replyTo_sender (outcome : Settled AgentResponse) :
  sender (replyTo outcome) = ai.
Proof. by destruct outcome. Qed.

(** What one event does to the panel, case by case. *)
Lemma panelStep_cases (p : Panel) (ev : PanelEvent) :
  (* the input changed, or nothing did *)
  (∃ v, panelStep p ev
        = {| session :=
               {| messages := messages (session p); inputText := v;
                  activeAgent := activeAgent (session p);
                  agentStatus := agentStatus (session p);
                  consoleLog := consoleLog (session p);
                  requests := requests (session p) |};
             inFlight := inFlight p |})
  (* a request went out *)
  ∨ (∃ request tag status,
       ¬ whitespaceOnly request.1
       ∧ panelStep p ev
         = {| session :=
                {| messages := messages (session p) ++ [userMessage request.1];
                   inputText := "";
                   activeAgent := Some tag; agentStatus := status;
                   consoleLog := consoleLog (session p);
                   requests := requests (session p) ++ [request] |};
              inFlight := inFlight p ++ [request] |})
  (* a request settled *)
  ∨ (∃ k outcome,
       k < length (inFlight p)
       ∧ panelStep p ev
         = {| session :=
                {| messages := messages (session p) ++ [replyTo outcome];
                   inputText := inputText (session p);
                   activeAgent := None; agentStatus := "";
                   consoleLog :=
                     consoleLog (session p)
                     ++ match outcome with
                        | Fulfilled _ => []
                        | Rejected e => ["Chat Error" +:+ " " +:+ e]
                        end;
                   requests := requests (session p) |};
              inFlight := delete k (inFlight p) |}).
Proof.
  destruct p as [s fl]. destruct ev as [v|params|k outcome]; cbn [panelStep session inFlight].
  - left. by exists v.
  - destruct (sendBegin_run params s) as [[Ht ->]|[Ht (tag & status & ->)]].
    + left. exists (inputText s). by destruct s.
    + right; left. exists (inputText s, context params), tag, status.
      split; [|done]. cbn. rewrite <- trim_falsy. by rewrite Ht.
  - destruct (fl !! k) as [request|] eqn:Hk.
    + right; right. exists k, outcome. split.
      * by eapply lookup_lt_Some.
      * by rewrite sendSettle_run.
    + left. exists (inputText s). by destruct s.
Qed.

Lemma panelRun_snoc (p : Panel) (evs : list PanelEvent) (ev : PanelEvent) :
  panelRun p (evs ++ [ev]) = panelStep (panelRun p evs) ev.
Proof. unfold panelRun. by rewrite foldl_app. Qed.

(** From the mounted panel and under any interleaving of typing, submitting
    and settling: every user message has sent one request; every request has
    been answered by one reply or is still in flight (the greeting being the
    one message more); and the console holds at most one line per settled
    request. *)
Theorem panelRun_accounting (evs : list PanelEvent) :
  let p := panelRun mounted evs in
  length (messagesOf user (session p)) = length (requests (session p))
  ∧ length (messagesOf ai (session p)) + length (inFlight p)
    = 1 + length (requests (session p))
  ∧ length (consoleLog (session p)) + length (inFlight p)
    ≤ length (requests (session p)).
Proof.
  induction evs as [|ev evs IH] using rev_ind; [by cbn|].
  rewrite panelRun_snoc. cbn zeta in *.
  destruct IH as (IH1 & IH2 & IH3). unfold messagesOf in *.
  destruct (panelStep_cases (panelRun mounted evs) ev)
    as [(v & ->)|[(request & tag & status & _ & ->)|(k & outcome & Hk & ->)]];
    cbn [session inFlight messages requests consoleLog].
  - done.
  - rewrite !messagesOf_snoc. cbn [sender userMessage].
    rewrite (decide_True (P := user = user)), (decide_False (P := user = ai)) by done.
    rewrite !length_app. cbn [length]. lia.
  - rewrite !messagesOf_snoc, replyTo_sender.
    rewrite (decide_True (P := ai = ai)), (decide_False (P := ai = user)) by done.
    apply lookup_lt_is_Some_2 in Hk as Hsome.
    rewrite !length_app, length_delete by done.
    destruct outcome; cbn [length]; lia.
Qed.

(** From the mounted panel, whenever no request is in flight the busy
    indicator is off: no active agent, empty status. *)
Theorem panelRun_idle (evs : list PanelEvent) :
  inFlight (panelRun mounted evs) = [] →
  activeAgent (session (panelRun mounted evs)) = None
  ∧ agentStatus (session (panelRun mounted evs)) = "".
Proof.
  induction evs as [|ev evs IH] using rev_ind; [done|].
  rewrite panelRun_snoc.
  destruct (panelStep_cases (panelRun mounted evs) ev)
    as [(v & ->)|[(request & tag & status & _ & ->)|(k & outcome & Hk & ->)]];
    cbn [session inFlight activeAgent agentStatus].
  - done.
  - by intros [? ?]%app_eq_nil.
  - done.
Qed.

(** No blank message of the user ever enters the transcript. *)
Theorem panelRun_no_blank (p : Panel) (evs : list PanelEvent) :
  Forall (λ m, sender m = user → ¬ whitespaceOnly (text m)) (messages (session p)) →
  Forall (λ m, sender m = user → ¬ whitespaceOnly (text m))
         (messages (session (panelRun p evs))).
Proof.
  intros Hp. induction evs as [|ev evs IH] using rev_ind; [done|].
  rewrite panelRun_snoc.
  destruct (panelStep_cases (panelRun p evs) ev)
    as [(v & ->)|[(request & tag & status & Hreq & ->)|(k & outcome & Hk & ->)]];
    cbn [session messages].
  - done.
  - apply Forall_app. split; [done|]. by apply Forall_singleton.
  - apply Forall_app. split; [done|]. apply Forall_singleton.
    by rewrite replyTo_sender.
Qed.

(** The transcript, the request log and the console are append-only: no
    event removes or rewrites an entry. *)
Theorem panelRun_append_only (p : Panel) (evs : list PanelEvent) :
  messages (session p) `prefix_of` messages (session (panelRun p evs))
  ∧ requests (session p) `prefix_of` requests (session (panelRun p evs))
  ∧ consoleLog (session p) `prefix_of` consoleLog (session (panelRun p evs)).
Proof.
  induction evs as [|ev evs IH] using rev_ind; [done|].
  rewrite panelRun_snoc. destruct IH as (IH1 & IH2 & IH3).
  destruct (panelStep_cases (panelRun p evs) ev)
    as [(v & ->)|[(request & tag & status & _ & ->)|(k & outcome & Hk & ->)]];
    cbn [session messages requests consoleLog].
  - done.
  - split_and!; [by apply prefix_app_r|by apply prefix_app_r|done].
  - split_and!; [by apply prefix_app_r|done|by apply prefix_app_r].
Qed.

(** ** The thought refinement under interleaved actions *)

Section Refinement.

Context (STRATEGIC_INTENTS : list StrategicIntent).

Lemma studioActs_snoc (st : Studio) (acts : list StudioAction) (a : StudioAction) :
  studioActs STRATEGIC_INTENTS st (acts ++ [a])
  = studioAct STRATEGIC_INTENTS (studioActs STRATEGIC_INTENTS st acts) a.
Proof. unfold studioActs. by rewrite foldl_app. Qed.

(** At most one refinement is ever in flight, and [isAnalyzingThought] is up
    exactly while it is: the button guard keeps a second request from
    starting, and the [finally] of the handler lowers the flag however the
    request settles. A refinement in flight was started on a thought that is
    not empty. *)
Theorem studioActs_single_flight (params : ReportParameters)
    (acts : list StudioAction) :
  let st := studioActs STRATEGIC_INTENTS (mkStudio params false []) acts in
  length (captured st) = (if isAnalyzingThought st then 1 else 0)
  ∧ Forall (λ p, falsy (initialThought p) = false) (captured st).
Proof.
  induction acts as [|a acts IH] using rev_ind; [by cbn|].
  rewrite studioActs_snoc. cbn zeta in *.
  destruct (studioActs STRATEGIC_INTENTS (mkStudio params false []) acts)
    as [h flag cap].
  cbn [captured isAnalyzingThought] in IH. destruct IH as [Hlen Hall].
  destruct a; cbn [studioAct held captured isAnalyzingThought]; try done.
  - destruct (falsy (initialThought h)) eqn:Hf; [done|].
    destruct flag; [done|]. cbn [orb captured isAnalyzingThought].
    destruct cap; [|done]. split; [done|]. by apply Forall_singleton.
  - destruct cap as [|p rest]; [done|]. cbn [captured isAnalyzingThought].
    destruct flag; [|done]. cbn in Hlen. split; [lia|].
    by apply Forall_cons in Hall as [_ ?].
Qed.

(** The legacy field keeps agreeing with the selection even when a
    refinement settles late and writes back the parameters it captured
    before later toggles: what it captured agreed as well. *)
Theorem studioActs_primaryAgrees (params : ReportParameters)
    (acts : list StudioAction) :
  primaryAgrees params →
  primaryAgrees (held (studioActs STRATEGIC_INTENTS (mkStudio params false []) acts)).
Proof.
  apply (studioActs_invariant STRATEGIC_INTENTS primaryAgrees).
  - intros p ev. apply studioStep_primaryAgrees.
  - done.
Qed.

End Refinement.

(** ** The intent cards *)



(** ** Further examples *)

(** Two requests in flight: when the first settles the busy indicator goes
    off although the second is still waiting. *)
Example indicator_off_while_waiting :
  let p := panelRun mounted
             [TypeText "Any news?"; Submit (sampleParams None None);
              TypeText "Help me negotiate"; Submit (sampleParams None None);
              Settles 0 (Rejected "503")] in
  inFlight p
  = [("Help me negotiate",
      "User is a Corporate in Vietnam. Industry: Manufacturing, Logistics.")]
  ∧ activeAgent (session p) = None
  ∧ messages (session p)
    = [greeting; userMessage "Any news?"; userMessage "Help me negotiate";
       fallbackMessage].
Proof. vm_compute. done. Qed.

(** ** Instances of the further properties on the sample data *)

Lemma studioActs_selection_NoDup_witness :
  NoDup (selection (sampleParams (Some ["market_entry"]) None))
  ∧ NoDup (selection
             (held (studioActs sampleIntents
                      (mkStudio (sampleParams (Some ["market_entry"]) None) false [])
                      [ClickRefine; Toggles "partnership"; Proceeds;
                       RefineSettles (Fulfilled "Diversify supply");
                       Toggles "market_entry"]))).
Proof.
  split.
  - apply (bool_decide_unpack _). vm_compute. exact I.
  - apply (studioActs_selection_NoDup sampleIntents).
    apply (bool_decide_unpack _). vm_compute. exact I.
Defined.

Lemma toggleIntent_round_trip_witness :
  selectedIntents (sampleParams (Some ["market_entry"]) (Some "market_entry"))
  = Some ["market_entry"]
  ∧ ("partnership" ∉ ["market_entry"])
  ∧ primaryAgrees (sampleParams (Some ["market_entry"]) (Some "market_entry"))
  ∧ toggleIntent
      (toggleIntent (sampleParams (Some ["market_entry"]) (Some "market_entry"))
         "partnership")
      "partnership"
    = sampleParams (Some ["market_entry"]) (Some "market_entry").
Proof.
  split_and!.
  - reflexivity.
  - apply (bool_decide_unpack _). vm_compute. exact I.
  - reflexivity.
  - apply (toggleIntent_round_trip _ ["market_entry"]).
    + reflexivity.
    + apply (bool_decide_unpack _). vm_compute. exact I.
    + reflexivity.
Defined.

Lemma toggleIntent_keeps_primary_witness :
  head (selection (sampleParams (Some ["market_entry"; "partnership"]) None))
  = Some "market_entry"
  ∧ "partnership" ≠ "market_entry"
  ∧ selectedIntent
      (toggleIntent (sampleParams (Some ["market_entry"; "partnership"]) None)
         "partnership")
    = Some "market_entry".
Proof.
  split_and!.
  - reflexivity.
  - apply (bool_decide_unpack _). vm_compute. exact I.
  - apply toggleIntent_keeps_primary.
    + reflexivity.
    + apply (bool_decide_unpack _). vm_compute. exact I.
Defined.

Lemma handleProceedToCanvas_statement_witness :
  selection (sampleParams (Some ["market_entry"; "bogus"]) None) ≠ []
  ∧ ∃ st,
      problemStatement
        (studioStep sampleIntents (sampleParams (Some ["market_entry"; "bogus"]) None)
           ProceedToCanvas)
      = Some st
      ∧ JsString.truthy st = true.
Proof.
  split.
  - apply (bool_decide_unpack _). vm_compute. exact I.
  - destruct (handleProceedToCanvas_statement sampleIntents
                (sampleParams (Some ["market_entry"; "bogus"]) None))
      as (st & Hst & Htruthy & _).
    + apply (bool_decide_unpack _). vm_compute. exact I.
    + exists st. split; [exact Hst|exact Htruthy].
Defined.

Lemma studioActs_upload_flag_witness :
  (is_Some (uploadedFileName (sampleParams None None)) →
   uploadedDocument (sampleParams None None) = Some true)
  ∧ uploadedDocument
      (held (studioActs sampleIntents (mkStudio (sampleParams None None) false [])
               [Uploads (Some "brief.pdf"); ClickRefine; Toggles "partnership";
                RefineSettles (Rejected "503")]))
    = Some true.
Proof.
  split.
  - intros [name Hname]. discriminate Hname.
  - apply (studioActs_upload_flag sampleIntents).
    + intros [name Hname]. discriminate Hname.
    + exists "brief.pdf". reflexivity.
Defined.

Lemma activeEngines_toggle_appends_witness :
  ("partnership" ∉ selection (sampleParams (Some ["market_entry"]) None))
  ∧ ∃ added,
      activeEngines sampleIntents
        (toggleIntent (sampleParams (Some ["market_entry"]) None) "partnership")
      = activeEngines sampleIntents (sampleParams (Some ["market_entry"]) None)
        ++ added.
Proof.
  split.
  - apply (bool_decide_unpack _). vm_compute. exact I.
  - destruct (activeEngines_toggle_appends sampleIntents
                (sampleParams (Some ["market_entry"]) None) "partnership")
      as (added & Hadded & _).
    + apply (bool_decide_unpack _). vm_compute. exact I.
    + exists added. exact Hadded.
Defined.

Lemma handleSendMessage_delivers_witness :
  ¬ whitespaceOnly (inputText (sampleSession " Plan the entry "))
  ∧ (handleSendMessage (sampleParams None None) echoResponder
       (sampleSession " Plan the entry ")).1
    = Normal ().
Proof.
  split.
  - apply (bool_decide_unpack _). vm_compute. exact I.
  - rewrite (handleSendMessage_delivers (sampleParams None None) echoResponder
               (sampleSession " Plan the entry ")
               {| content := " Plan the entry ";
                  response_agent := Some strategist;
                  response_sources := None |}).
    + reflexivity.
    + apply (bool_decide_unpack _). vm_compute. exact I.
    + reflexivity.
Defined.

Lemma panelRun_idle_witness :
  inFlight (panelRun mounted
              [TypeText "Any news?"; Submit (sampleParams None None);
               Settles 0 (Rejected "503")])
  = []
  ∧ activeAgent
      (session (panelRun mounted
                  [TypeText "Any news?"; Submit (sampleParams None None);
                   Settles 0 (Rejected "503")]))
    = None.
Proof.
  split.
  - reflexivity.
  - apply (panelRun_idle
             [TypeText "Any news?"; Submit (sampleParams None None);
              Settles 0 (Rejected "503")]).
    reflexivity.
Defined.

Lemma panelRun_no_blank_witness :
  Forall (λ m, sender m = user → ¬ whitespaceOnly (text m))
         (messages (session mounted))
  ∧ Forall (λ m, sender m = user → ¬ whitespaceOnly (text m))
           (messages (session (panelRun mounted
                                 [TypeText "  "; Submit (sampleParams None None);
                                  TypeText "Any news?";
                                  Submit (sampleParams None None)]))).
Proof.
  split.
  - apply (bool_decide_unpack _). vm_compute. exact I.
  - apply panelRun_no_blank.
    apply (bool_decide_unpack _). vm_compute. exact I.
Defined.

Lemma studioActs_primaryAgrees_witness :
  primaryAgrees (sampleParams (Some ["market_entry"]) (Some "market_entry"))
  ∧ primaryAgrees
      (held (studioActs sampleIntents
               (mkStudio (sampleParams (Some ["market_entry"]) (Some "market_entry"))
                  false [])
               [ClickRefine; Toggles "partnership";
                RefineSettles (Fulfilled "Diversify supply")])).
Proof.
  split.
  - reflexivity.
  - apply (studioActs_primaryAgrees sampleIntents). reflexivity.
Defined.


Lemma enginesByPhase_counts_witness :
  Forall (λ m, m ∉ Object_prototype)
         (activeEngines sampleIntents (sampleParams (Some ["partnership"]) None))
  ∧ length (concat (enginesByPhase
                      (activeEngines sampleIntents
                         (sampleParams (Some ["partnership"]) None))).*2)
    = length (activeEngines sampleIntents (sampleParams (Some ["partnership"]) None)).
Proof.
  split.
  - apply (bool_decide_unpack _). vm_compute. exact I.
  - apply (enginesByPhase_counts sampleIntents).
    apply (bool_decide_unpack _). vm_compute. exact I.
Defined.
